(** * OdooGuard backup rotation: a shallow embedding of [backup.py]

    The development follows the layout of the Python module: the text
    helpers the codec relies on ([str.split], [Path.stem], [strftime],
    [strptime]), the proleptic Gregorian calendar of the [datetime]
    module, the timestamp codec ([get_backup_name],
    [parse_backup_timestamp]) and the retention engine ([rotate_backups]).

    Conventions.
    - A Python [str] is a [string]; a character is a code point below 256.
    - A [datetime] is the record of its seven fields, compared field by
      field as Python does; [timedelta] arithmetic goes through the day
      ordinal, and raises [OverflowError] outside [1 .. 3652059].
    - A [Path] inside the backup directory is its file name: all paths of
      one run share the parent [backup_dir], so that their order is the
      order of their names.
    - The system clock is a parameter [now] of the functions reading it.
    - Library functions ([pathlib], [datetime], [_strptime], [fnmatch])
      are transcribed from CPython 3.11, the C library being glibc. *)

From Stdlib Require Import ZArith Lia Ascii.
From stdpp Require Import gmap strings list sorting.

Local Open Scope Z_scope.

(** ** Text helpers *)

Module Text.

Definition chr_eqb (a b : ascii) : bool := bool_decide (a = b).

(** [c in s] for a single character. *)
Fixpoint contains (c : ascii) (s : string) : bool :=
  match s with
  | "" => false
  | String a r => chr_eqb a c || contains c r
  end.

(** [s.split(sep)] for a one-character separator: empty fields are kept
    and the empty string splits into one empty field. *)
Fixpoint split (sep : ascii) (s : string) : list string :=
  match s with
  | "" => [""]
  | String a r =>
      if chr_eqb a sep then "" :: split sep r
      else match split sep r with
           | h :: t => String a h :: t
           | [] => [String a ""]
           end
  end.

(** [sep.join(parts)] *)
Fixpoint join (sep : string) (parts : list string) : string :=
  match parts with
  | [] => ""
  | [p] => p
  | p :: rest => p +:+ sep +:+ join sep rest
  end.

(** [parts[-n:]] *)
Definition last_n {A} (n : nat) (l : list A) : list A :=
  drop (length l - n)%nat l.

(** [s.rfind(c)]: index of the last occurrence, [-1] when there is none. *)
Fixpoint rfind (c : ascii) (s : string) : Z :=
  match s with
  | "" => -1
  | String a r =>
      let i := rfind c r in
      if 0 <=? i then 1 + i
      else if chr_eqb a c then 0 else -1
  end.

(** [s[:n]] *)
Fixpoint take_str (n : nat) (s : string) : string :=
  match n, s with
  | S k, String a r => String a (take_str k r)
  | _, _ => ""
  end.

Definition len (s : string) : Z := Z.of_nat (String.length s).

End Text.

(** ** [pathlib]: the final component of a path and its stem *)

Module PurePath.

(** [Path(s).name]: the path is cut at ["/"]; empty and ["."]
    components are dropped; the name is the last one left, or [""]. *)
Definition name (s : string) : string :=
  List.last
    (filter (λ p, p ≠ "" ∧ p ≠ ".") (Text.split "/" s))
    "".

(** [Path(s).stem]:
    [i = name.rfind('.'); name[:i] if 0 < i < len(name) - 1 else name] *)
Definition stem (s : string) : string :=
  let nm := name s in
  let i := Text.rfind "." nm in
  if (0 <? i) && (i <? Text.len nm - 1) then Text.take_str (Z.to_nat i) nm
  else nm.

End PurePath.

(** ** The calendar of the [datetime] module *)

Module Calendar.

Definition MINYEAR : Z := 1.
Definition MAXYEAR : Z := 9999.
Definition MAXORDINAL : Z := 3652059.

Definition DAYS_IN_MONTH (m : Z) : Z :=
  match m with
  | 1 => 31 | 2 => 28 | 3 => 31 | 4 => 30 | 5 => 31 | 6 => 30
  | 7 => 31 | 8 => 31 | 9 => 30 | 10 => 31 | 11 => 30 | 12 => 31
  | _ => -1
  end.

Definition DAYS_BEFORE_MONTH (m : Z) : Z :=
  match m with
  | 1 => 0 | 2 => 31 | 3 => 59 | 4 => 90 | 5 => 120 | 6 => 151
  | 7 => 181 | 8 => 212 | 9 => 243 | 10 => 273 | 11 => 304 | 12 => 334
  | _ => -1
  end.

(** [year % 4 == 0 and (year % 100 != 0 or year % 400 == 0)] *)
Definition is_leap (y : Z) : bool :=
  (y mod 4 =? 0) && (negb (y mod 100 =? 0) || (y mod 400 =? 0)).

Definition b2z (b : bool) : Z := if b then 1 else 0.

(** [y = year - 1; y*365 + y//4 - y//100 + y//400] *)
Definition days_before_year (year : Z) : Z :=
  let y := year - 1 in
  y * 365 + y / 4 - y / 100 + y / 400.

Definition days_in_month (year m : Z) : Z :=
  if (m =? 2) && is_leap year then 29 else DAYS_IN_MONTH m.

Definition days_before_month (year m : Z) : Z :=
  DAYS_BEFORE_MONTH m + b2z ((2 <? m) && is_leap year).

Definition ymd2ord (year m d : Z) : Z :=
  days_before_year year + days_before_month year m + d.

Definition DI400Y : Z := 146097.
Definition DI100Y : Z := 36524.
Definition DI4Y : Z := 1461.

(** The tail of [_ord2ymd]: month and day from the zero-based day of the
    year [n]; the estimate [(n + 50) >> 5] is exact or one too large. *)
Definition month_day (leapyear : bool) (n : Z) : Z * Z :=
  let m := Z.shiftr (n + 50) 5 in
  let preceding := DAYS_BEFORE_MONTH m + b2z ((2 <? m) && leapyear) in
  if n <? preceding then
    let m' := m - 1 in
    let preceding' := preceding - (DAYS_IN_MONTH m' + b2z ((m' =? 2) && leapyear)) in
    (m', n - preceding' + 1)
  else (m, n - preceding + 1).

(** [_ord2ymd]: the date of a day ordinal, by the 400/100/4/1 year cycles. *)
Definition ord2ymd (ordinal : Z) : Z * Z * Z :=
  let n := ordinal - 1 in
  let n400 := n / DI400Y in
  let n := n mod DI400Y in
  let n100 := n / DI100Y in
  let n := n mod DI100Y in
  let n4 := n / DI4Y in
  let n := n mod DI4Y in
  let n1 := n / 365 in
  let n := n mod 365 in
  let year := n400 * 400 + 1 + (n100 * 100 + n4 * 4 + n1) in
  if (n1 =? 4) || (n100 =? 4) then (year - 1, 12, 31)
  else
    let leapyear := (n1 =? 3) && (negb (n4 =? 24) || (n100 =? 3)) in
    let '(m, d) := month_day leapyear n in
    (year, m, d).

(** [_isoweek1monday]: ordinal of the Monday starting ISO week 1. *)
Definition isoweek1monday (year : Z) : Z :=
  let firstday := ymd2ord year 1 1 in
  let firstweekday := (firstday + 6) mod 7 in
  let week1monday := firstday - firstweekday in
  if 3 <? firstweekday then week1monday + 7 else week1monday.

(** [date.isocalendar()]: ISO year and ISO week number (the weekday is
    not used by the rotation). *)
Definition isocalendar (y m d : Z) : Z * Z :=
  let week1monday := isoweek1monday y in
  let today := ymd2ord y m d in
  let week := (today - week1monday) / 7 in
  if week <? 0 then
    let year := y - 1 in
    let week1monday := isoweek1monday year in
    (year, (today - week1monday) / 7 + 1)
  else if (52 <=? week) && (isoweek1monday (y + 1) <=? today) then
    (y + 1, 1)
  else (y, week + 1).

End Calendar.

(** ** [datetime] values *)

Record datetime : Type := mk_datetime {
  year : Z; month : Z; day : Z;
  hour : Z; minute : Z; second : Z; microsecond : Z
}.

Global Instance datetime_eq_dec : EqDecision datetime.
Proof. solve_decision. Defined.

(** [_check_date_fields] and [_check_time_fields]: what the constructor
    accepts; anything else raises [ValueError]. *)
Definition check_date_fields (y m d : Z) : bool :=
  (Calendar.MINYEAR <=? y) && (y <=? Calendar.MAXYEAR) &&
  (1 <=? m) && (m <=? 12) &&
  (1 <=? d) && (d <=? Calendar.days_in_month y m).

Definition check_time_fields (h mi s us : Z) : bool :=
  (0 <=? h) && (h <=? 23) && (0 <=? mi) && (mi <=? 59) &&
  (0 <=? s) && (s <=? 59) && (0 <=? us) && (us <=? 999999).

Definition datetime_new (y m d h mi s us : Z) : option datetime :=
  if check_date_fields y m d && check_time_fields h mi s us
  then Some (mk_datetime y m d h mi s us)
  else None.

(** The datetimes Python can hold. *)
Definition valid_datetime (t : datetime) : Prop :=
  check_date_fields (year t) (month t) (day t) = true ∧
  check_time_fields (hour t) (minute t) (second t) (microsecond t) = true.

(** Comparison is that of the tuples
    [(year, month, day, hour, minute, second, microsecond)]. *)
Definition lex (c1 c2 : comparison) : comparison :=
  match c1 with Eq => c2 | _ => c1 end.

Definition dt_cmp (a b : datetime) : comparison :=
  lex (year a ?= year b)
  (lex (month a ?= month b)
  (lex (day a ?= day b)
  (lex (hour a ?= hour b)
  (lex (minute a ?= minute b)
  (lex (second a ?= second b)
       (microsecond a ?= microsecond b)))))).

Definition dt_lt (a b : datetime) : bool :=
  match dt_cmp a b with Lt => true | _ => false end.
Definition dt_le (a b : datetime) : bool :=
  match dt_cmp a b with Gt => false | _ => true end.
Definition dt_gt (a b : datetime) : bool := dt_lt b a.
Definition dt_ge (a b : datetime) : bool := dt_le b a.

Definition toordinal (t : datetime) : Z :=
  Calendar.ymd2ord (year t) (month t) (day t).

(** A [timedelta] built from whole days and weeks, as a number of days. *)
Definition timedelta (days weeks : Z) : Z := days + 7 * weeks.

(** [t + timedelta(days = n)], after [datetime.__add__]: the fields are
    turned into (days, seconds, microseconds), normalised, and the date is
    rebuilt from the ordinal; [None] is [OverflowError]. *)
Definition dt_add (t : datetime) (n : Z) : option datetime :=
  let us := microsecond t in
  let secs := hour t * 3600 + minute t * 60 + second t + us / 1000000 in
  let days := toordinal t + n + secs / 86400 in
  let us := us mod 1000000 in
  let secs := secs mod 86400 in
  let h := secs / 3600 in
  let rem := secs mod 3600 in
  if (0 <? days) && (days <=? Calendar.MAXORDINAL) then
    let '(y, m, d) := Calendar.ord2ymd days in
    Some (mk_datetime y m d h (rem / 60) (rem mod 60) us)
  else None.

(** [t - delta] is [t + (-delta)]. *)
Definition dt_sub (t : datetime) (delta : Z) : option datetime := dt_add t (- delta).

(** [t.isocalendar().year, t.isocalendar().week] *)
Definition iso_year_week (t : datetime) : Z * Z :=
  Calendar.isocalendar (year t) (month t) (day t).

(** ** [strftime] and [strptime] for the format ["%Y%m%d_%H%M%S"] *)

Module Strftime.

Definition digit (n : Z) : ascii := ascii_of_N (48 + Z.to_N (n mod 10)).

Definition pad2 (n : Z) : string :=
  String (digit (n / 10)) (String (digit n) "").

Definition pad4 (n : Z) : string :=
  String (digit (n / 1000)) (String (digit (n / 100)) (pad2 n)).

(** [%Y]: the year in decimal, as the C library prints it: glibc does
    not pad it, so that a year below 1000 has fewer than four digits. *)
Definition year_text (n : Z) : string :=
  if n <? 10 then String (digit n) ""
  else if n <? 100 then pad2 n
  else if n <? 1000 then String (digit (n / 100)) (pad2 n)
  else pad4 n.

(** [t.strftime("%Y%m%d_%H%M%S")]: the other fields are zero-padded on
    two digits; the microsecond is not printed. *)
Definition strftime (t : datetime) : string :=
  year_text (year t) +:+ pad2 (month t) +:+ pad2 (day t) +:+ "_" +:+
  pad2 (hour t) +:+ pad2 (minute t) +:+ pad2 (second t).

End Strftime.

Module Strptime.

(** A backtracking matcher returns every way to match a prefix, as
    (matched text, remaining text), in the order the regex engine
    tries them. *)
Definition matcher : Type := string → list (string * string).

Definition one (p : ascii → bool) : matcher := λ s,
  match s with
  | String c r => if p c then [(String c "", r)] else []
  | "" => []
  end.

Definition cat (a b : matcher) : matcher := λ s,
  '(x, r) ← a s; '(y, r') ← b r; [(x +:+ y, r')].

Definition alt (a b : matcher) : matcher := λ s, a s ++ b s.

Definition between (lo hi : ascii) (c : ascii) : bool :=
  ((N_of_ascii lo <=? N_of_ascii c) && (N_of_ascii c <=? N_of_ascii hi))%N.

Definition chr (c : ascii) : matcher := one (Text.chr_eqb c).
Definition rng (lo hi : ascii) : matcher := one (between lo hi).
(** [\d] *)
Definition dig : matcher := rng "0" "9".

(** The directives, as [_strptime.TimeRE] spells them. *)
(** [(?P<Y>\d\d\d\d)] *)
Definition re_Y : matcher := cat dig (cat dig (cat dig dig)).
(** [(?P<m>1[0-2]|0[1-9]|[1-9])] *)
Definition re_m : matcher :=
  alt (cat (chr "1") (rng "0" "2")) (alt (cat (chr "0") (rng "1" "9")) (rng "1" "9")).
(** [(?P<d>3[0-1]|[1-2]\d|0[1-9]|[1-9]| [1-9])] *)
Definition re_d : matcher :=
  alt (cat (chr "3") (rng "0" "1"))
 (alt (cat (rng "1" "2") dig)
 (alt (cat (chr "0") (rng "1" "9"))
 (alt (rng "1" "9") (cat (chr " ") (rng "1" "9"))))).
(** [(?P<H>2[0-3]|[0-1]\d|\d)] *)
Definition re_H : matcher :=
  alt (cat (chr "2") (rng "0" "3")) (alt (cat (rng "0" "1") dig) dig).
(** [(?P<M>[0-5]\d|\d)] *)
Definition re_M : matcher := alt (cat (rng "0" "5") dig) dig.
(** [(?P<S>6[0-1]|[0-5]\d|\d)] *)
Definition re_S : matcher :=
  alt (cat (chr "6") (rng "0" "1")) (alt (cat (rng "0" "5") dig) dig).

(** The regex of ["%Y%m%d_%H%M%S"]: the six groups and what is left of
    the text, for every match in backtracking order. *)
Definition format_regex (data : string)
    : list (string * string * string * string * string * string * string) :=
  '(gY, s) ← re_Y data;
  '(gm, s) ← re_m s;
  '(gd, s) ← re_d s;
  '(_, s) ← chr "_" s;
  '(gH, s) ← re_H s;
  '(gM, s) ← re_M s;
  '(gS, s) ← re_S s;
  [(gY, gm, gd, gH, gM, gS, s)].

(** [int(group)]: decimal digits, surrounding blanks ignored. *)
Fixpoint int_acc (acc : Z) (s : string) : Z :=
  match s with
  | "" => acc
  | String c r =>
      if between "0" "9" c
      then int_acc (10 * acc + (Z.of_N (N_of_ascii c) - 48)) r
      else int_acc acc r
  end.
Definition int (s : string) : Z := int_acc 0 s.

(** [datetime.strptime(data, "%Y%m%d_%H%M%S")]; [None] is [ValueError]:
    no match, unconverted data after the first match, or fields the
    constructors refuse (a day past the end of the month, year 0,
    second 60 or 61). *)
Definition strptime (data : string) : option datetime :=
  match format_regex data with
  | [] => None
  | (gY, gm, gd, gH, gM, gS, rest) :: _ =>
      if bool_decide (rest = "")
      then datetime_new (int gY) (int gm) (int gd) (int gH) (int gM) (int gS) 0
      else None
  end.

End Strptime.

(** ** The timestamp codec *)

(** [get_backup_name]: [f"{db_name}_{ts}"] with
    [ts = datetime.now().strftime("%Y%m%d_%H%M%S")]. *)
Definition get_backup_name (db_name : string) (now : datetime) : string :=
  db_name +:+ "_" +:+ Strftime.strftime now.

(** [parse_backup_timestamp] *)
Definition parse_backup_timestamp (filename : string) : option datetime :=
  let stem := PurePath.stem filename in
  let parts := Text.split "_" stem in
  if (length parts <? 2)%nat then None
  else
    let ts_str := Text.join "_" (Text.last_n 2 parts) in
    Strptime.strptime ts_str.

(** ** The backup directory and the effects of a run *)

(** [Path.glob] matches file names against a shell pattern. The fragment
    modelled is the one [f"{db}_*.zip"] is made of: [*] matches any run of
    characters, [?] any one character, everything else itself (bracket
    expressions and patterns spanning several directories are not
    modelled). *)
Fixpoint fnmatch (pat : string) : string → bool :=
  match pat with
  | "" => λ s, bool_decide (s = "")
  | String "*" p =>
      fix star (s : string) : bool :=
        fnmatch p s || match s with "" => false | String _ r => star r end
  | String "?" p => λ s, match s with "" => false | String _ r => fnmatch p r end
  | String c p => λ s,
      match s with "" => false | String a r => Text.chr_eqb c a && fnmatch p r end
  end.

(** [sorted(paths)]: paths of one directory are ordered by their names,
    names by code points. *)
Definition sorted (l : list string) : list string := merge_sort String.le l.

Inductive exn : Type := OverflowError | OSError.

Inductive event : Type :=
| Info_skipping (name : string)
| Info_deleting (name : string)
| Warning_cannot_delete (name : string) (e : exn).

(** The part of the world a rotation touches: the names present in the
    backup directory, in the order the file system enumerates them; the
    names whose removal the file system refuses; the log written so far. *)
Record world : Type := mk_world {
  listing : list string;
  refused : gset string;
  log : list event
}.

Inductive result (A : Type) : Type :=
| Ok (a : A)
| Raise (e : exn).
Arguments Ok {A} a.
Arguments Raise {A} e.

(** Programs with effects on the world and exceptions; the effects made
    before an exception stay. *)
Definition M (A : Type) : Type := world → result A * world.

Definition ret {A} (a : A) : M A := λ w, (Ok a, w).
Definition bind {A B} (m : M A) (k : A → M B) : M B := λ w,
  match m w with
  | (Ok a, w') => k a w'
  | (Raise e, w') => (Raise e, w')
  end.
Definition raise {A} (e : exn) : M A := λ w, (Raise e, w).
(** [try: m / except Exception as e: h e] *)
Definition try_except {A} (m : M A) (h : exn → M A) : M A := λ w,
  match m w with
  | (Ok a, w') => (Ok a, w')
  | (Raise e, w') => h e w'
  end.

Notation "x ←! m ; k" := (bind m (λ x, k))
  (at level 20, m at level 100, k at level 200, right associativity, only parsing).
Notation "' pat ←! m ; k" := (bind m (λ pat, k))
  (at level 20, pat pattern, m at level 100, k at level 200, right associativity, only parsing).
Notation "m ;;! k" := (bind m (λ _, k))
  (at level 100, k at level 200, right associativity, only parsing).

(** An [OverflowError] of the date arithmetic propagates. *)
Definition of_option {A} (o : option A) : M A :=
  match o with Some a => ret a | None => raise OverflowError end.

Definition logging (e : event) : M unit := λ w,
  (Ok tt, mk_world (listing w) (refused w) (log w ++ [e])).

(** [backup_dir.glob(pattern)] *)
Definition glob (pat : string) : M (list string) := λ w,
  (Ok (filter (λ f, fnmatch pat f) (listing w)), w).

(** [f.unlink()] *)
Definition unlink (f : string) : M unit := λ w,
  if decide (f ∈ refused w ∨ f ∉ listing w)
  then (Raise OSError, w)
  else (Ok tt, mk_world (filter (λ g, g ≠ f) (listing w)) (refused w) (log w)).

(** [for x in l: s = body(s, x)] *)
Fixpoint for_each {A S} (l : list A) (body : S → A → M S) (s : S) : M S :=
  match l with
  | [] => ret s
  | x :: r => s' ←! body s x; for_each r body s'
  end.

(** ** The retention engine *)

Definition entry : Type := string * datetime.

(** [for f, ts in entries: if ts >= daily_cutoff: keep.add(f)] *)
Definition daily_step (daily_cutoff : datetime) (keep : gset string) (e : entry) : gset string :=
  let '(f, ts) := e in
  if dt_ge ts daily_cutoff then {[f]} ∪ keep else keep.

(** The body of the weekly and of the monthly loop, for the range
    [lo <= ts < hi] and the bucket key [key]. *)
Definition bucket_step (lo hi : datetime) (key : datetime → Z * Z)
    (buckets : gmap (Z * Z) entry) (e : entry) : gmap (Z * Z) entry :=
  let '(f, ts) := e in
  if dt_le lo ts && dt_lt ts hi then
    let k := key ts in
    match buckets !! k with
    | None => <[k := (f, ts)]> buckets
    | Some (_, best) => if dt_gt ts best then <[k := (f, ts)]> buckets else buckets
    end
  else buckets.

(** [(ts.year, ts.month)] *)
Definition year_month (ts : datetime) : Z * Z := (year ts, month ts).

(** [for f, _ in buckets.values(): keep.add(f)] *)
Definition add_values (buckets : gmap (Z * Z) entry) (keep : gset string) : gset string :=
  foldr (λ kv keep, {[ kv.2.1 ]} ∪ keep) keep (map_to_list buckets).

Definition weekly_of (weekly_cutoff daily_cutoff : datetime) (entries : list entry) :=
  fold_left (bucket_step weekly_cutoff daily_cutoff iso_year_week) entries ∅.
Definition monthly_of (monthly_cutoff weekly_cutoff : datetime) (entries : list entry) :=
  fold_left (bucket_step monthly_cutoff weekly_cutoff year_month) entries ∅.

(** The value of [keep] when the deletion loop starts, for given cutoffs. *)
Definition keep_for (daily_cutoff weekly_cutoff monthly_cutoff : datetime)
    (entries : list entry) : gset string :=
  let keep := fold_left (daily_step daily_cutoff) entries ∅ in
  let keep := add_values (weekly_of weekly_cutoff daily_cutoff entries) keep in
  add_values (monthly_of monthly_cutoff weekly_cutoff entries) keep.

(** The three cutoffs, in the order the function computes them. *)
Definition cutoffs (now : datetime) : option (datetime * datetime * datetime) :=
  daily_cutoff ← dt_sub now (timedelta 7 0);
  weekly_cutoff ← dt_sub now (timedelta 0 4);
  monthly_cutoff ← dt_sub now (timedelta 90 0);
  Some (daily_cutoff, weekly_cutoff, monthly_cutoff).

(** The body of the parsing loop:
    [ts = parse_backup_timestamp(f.name)], then [entries.append((f, ts))]
    or the log line of a skipped name. *)
Definition parse_step (entries : list entry) (f : string) : M (list entry) :=
  match parse_backup_timestamp f with
  | Some ts => ret (entries ++ [(f, ts)])
  | None => logging (Info_skipping f) ;;! ret entries
  end.

(** The body of the deletion loop: [if f not in keep:] log, then
    [try: f.unlink() / except Exception as e:] log a warning. *)
Definition delete_step (keep : gset string) (_ : unit) (e : entry) : M unit :=
  let '(f, ts) := e in
  if decide (f ∈ keep) then ret tt
  else
    logging (Info_deleting f) ;;!
    try_except (unlink f) (λ e, logging (Warning_cannot_delete f e)).

(** [rotate_backups], with [config.db_name] and the clock as parameters
    ([config.backup_dir] is the directory of the world). *)
Definition rotate_backups (db : string) (now : datetime) : M unit :=
  paths ←! glob (db +:+ "_*.zip");
  let files := sorted paths in
  if decide (files = []) then ret tt else
  entries ←! for_each files parse_step [];
  if decide (entries = []) then ret tt else
  '(daily_cutoff, weekly_cutoff, monthly_cutoff) ←! of_option (cutoffs now);
  let keep := keep_for daily_cutoff weekly_cutoff monthly_cutoff entries in
  for_each entries (delete_step keep) tt.

(** What a run decides, read off the code: the candidates, the parsed
    entries, the keep-set, and the delete-set (the entries outside
    [keep], in the order their removal is attempted). *)
Definition candidates (db : string) (names : list string) : list string :=
  sorted (filter (λ f, fnmatch (db +:+ "_*.zip") f) names).

Definition entries_of (files : list string) : list entry :=
  omap (λ f, ts ← parse_backup_timestamp f; Some (f, ts)) files.

Definition skipped_of (files : list string) : list string :=
  filter (λ f, parse_backup_timestamp f = None) files.

Definition delete_for (keep : gset string) (entries : list entry) : list string :=
  (filter (λ e : entry, e.1 ∉ keep) entries).*1.

Record plan : Type := mk_plan {
  kept : gset string;
  deleted : list string;
  skipped : list string
}.

Definition rotation_plan (db : string) (now : datetime) (names : list string) : option plan :=
  let files := candidates db names in
  let entries := entries_of files in
  if decide (entries = []) then Some (mk_plan ∅ [] (skipped_of files))
  else
    '(dc, wc, mc) ← cutoffs now;
    let keep := keep_for dc wc mc entries in
    Some (mk_plan keep (delete_for keep entries) (skipped_of files)).

(** The strict order of datetimes, as a proposition. *)
Definition dt_ltP (a b : datetime) : Prop :=
  year a < year b ∨ (year a = year b ∧
  (month a < month b ∨ (month a = month b ∧
  (day a < day b ∨ (day a = day b ∧
  (hour a < hour b ∨ (hour a = hour b ∧
  (minute a < minute b ∨ (minute a = minute b ∧
  (second a < second b ∨ (second a = second b ∧
   microsecond a < microsecond b))))))))))).

(** The order of (year, month, day) tuples. *)
Definition date_lt (a b : Z * Z * Z) : Prop :=
  a.1.1 < b.1.1 ∨ (a.1.1 = b.1.1 ∧ (a.1.2 < b.1.2 ∨ (a.1.2 = b.1.2 ∧ a.2 < b.2))).

(** The clock readings for which the three cutoffs exist: a valid datetime
    more than 90 days after 0001-01-01. *)
Definition clock_ok (now : datetime) : Prop :=
  valid_datetime now ∧ 90 < toordinal now.

(** ** Vocabulary of the retention properties *)

(** [lo <= ts < hi] *)
Definition in_range (lo hi ts : datetime) : bool := dt_le lo ts && dt_lt ts hi.

(** Membership of an entry in the bucket [k] of a tier. *)
Definition in_bucket (lo hi : datetime) (key : datetime → Z * Z) (k : Z * Z)
    (e : entry) : bool :=
  in_range lo hi e.2 && bool_decide (key e.2 = k).

(** What one bucket of the dictionary goes through during the loop. *)
Definition pick_step (lo hi : datetime) (key : datetime → Z * Z) (k : Z * Z)
    (acc : option entry) (e : entry) : option entry :=
  if in_bucket lo hi key k e then
    match acc with
    | None => Some e
    | Some b => if dt_gt e.2 b.2 then Some e else Some b
    end
  else acc.

(** [e] is the first entry of [l] that has the latest timestamp among the
    entries of [l] satisfying [P]. *)
Definition first_latest (P : entry → bool) (l : list entry) (e : entry) : Prop :=
  ∃ l1 l2, l = l1 ++ e :: l2 ∧ P e = true ∧
    (∀ x, x ∈ l1 → P x = true → dt_lt x.2 e.2 = true) ∧
    (∀ x, x ∈ l2 → P x = true → dt_le x.2 e.2 = true).

(** [s] is the survivor of a bucket: an entry of the bucket that is kept,
    the only one that is, and with the latest timestamp of the bucket. *)
Definition sole_survivor (keep : gset string) (bucket : entry → bool)
    (es : list entry) (s : entry) : Prop :=
  s ∈ es ∧ bucket s = true ∧ s.1 ∈ keep ∧
  (∀ x, x ∈ es → bucket x = true → x.1 ∈ keep → x = s) ∧
  (∀ x, x ∈ es → bucket x = true → dt_le x.2 s.2 = true).

(** The log lines of the deletion loop for the delete-set [ds]. *)
Definition removal_events (refused : gset string) (ds : list string) : list event :=
  f ← ds;
  if decide (f ∈ refused)
  then [Info_deleting f; Warning_cannot_delete f OSError]
  else [Info_deleting f].

(** The directory after the deletion loop. *)
Definition remaining (refused : gset string) (ds : list string) (names : list string)
    : list string :=
  filter (λ g, g ∉ ds ∨ g ∈ refused) names.

(** The paths whose removal a log records as attempted, and as failed. *)
Definition attempted (evs : list event) : list string :=
  omap (λ e, match e with Info_deleting f => Some f | _ => None end) evs.
Definition failed (evs : list event) : list string :=
  omap (λ e, match e with Warning_cannot_delete f _ => Some f | _ => None end) evs.

(** The cutoffs [dc], [wc], [mc] and the plan [p] of a run. *)
Definition run_of (db : string) (now : datetime) (names : list string)
    (dc wc mc : datetime) (p : plan) : Prop :=
  dt_sub now 7 = Some dc ∧ dt_sub now 28 = Some wc ∧ dt_sub now 90 = Some mc ∧
  rotation_plan db now names = Some p.

(** Two worlds that differ only by the order in which the directory is
    enumerated. *)
Definition world_equiv (w1 w2 : world) : Prop :=
  listing w1 ≡ₚ listing w2 ∧ refused w1 = refused w2 ∧ log w1 = log w2.

(** ** More of [pathlib]: suffixes *)

Module PurePathSuffix.

(** [s[n:]] *)
Fixpoint drop_str (n : nat) (s : string) : string :=
  match n, s with
  | S k, String _ r => drop_str k r
  | _, _ => s
  end.

(** [s.startswith(c)] for one character. *)
Definition starts_with (c : ascii) (s : string) : bool :=
  match s with
  | String a _ => Text.chr_eqb a c
  | "" => false
  end.

(** [Path(s).suffix]:
    [i = name.rfind('.'); name[i:] if 0 < i < len(name) - 1 else ''] *)
Definition suffix (s : string) : string :=
  let nm := PurePath.name s in
  let i := Text.rfind "." nm in
  if (0 <? i) && (i <? Text.len nm - 1) then drop_str (Z.to_nat i) nm
  else "".

(** [Path(s).with_suffix(sfx)], as the name of the resulting path (its
    parent is that of [s]); [None] is [ValueError]: an invalid suffix
    or an empty name. *)
Definition with_suffix (s sfx : string) : option string :=
  if Text.contains "/" sfx then None
  else if (negb (bool_decide (sfx = "")) && negb (starts_with "." sfx))
          || bool_decide (sfx = ".") then None
  else
    let nm := PurePath.name s in
    if bool_decide (nm = "") then None
    else
      let old_suffix := suffix s in
      if bool_decide (old_suffix = "") then Some (nm +:+ sfx)
      else Some (Text.take_str (String.length nm - String.length old_suffix) nm +:+ sfx).

End PurePathSuffix.

(** ** The names [create_zip] deals with *)

(** [create_zip] computes [base_name = get_backup_name(config.db_name)]
    and [dest_base = config.backup_dir / base_name]; the archive
    [shutil.make_archive(str(dest_base), "zip", ...)] writes is
    [str(dest_base) + ".zip"], and the path returned is
    [dest_base.with_suffix(".zip")]. Both are given as names in
    [backup_dir], for a database name without ["/"]. *)
Definition archive_written (db : string) (now : datetime) : string :=
  get_backup_name db now +:+ ".zip".

Definition archive_returned (db : string) (now : datetime) : option string :=
  PurePathSuffix.with_suffix (get_backup_name db now) ".zip".

(** ** More vocabulary *)

(** A datetime cut to the second, as [strftime] prints it. *)
Definition whole_second (t : datetime) : datetime :=
  mk_datetime (year t) (month t) (day t) (hour t) (minute t) (second t) 0.


(** ** Sample data *)

Definition demo_now : datetime := mk_datetime 2025 4 10 0 0 0 0.

Definition demo_dir : list string :=
  [ "shop_20250409_020000.zip"; "shop_20250301_020000.zip"; "shop_20250305_020000.zip";
    "shop_20250101_020000.zip"; "notadb_20250409_020000.zip"; "shop_backup_final.zip";
    "shop_20250315_020000.zip"; "shop_20250315_100000.zip" ].

Definition demo_plan_value : plan :=
  mk_plan
    (list_to_set ["shop_20250409_020000.zip"; "shop_20250305_020000.zip";
                  "shop_20250315_100000.zip"])
    ["shop_20250101_020000.zip"; "shop_20250301_020000.zip"; "shop_20250315_020000.zip"]
    ["shop_backup_final.zip"].

(** Two archives of one bucket with the same timestamp. *)
Definition tie_dir : list string :=
  [ "shop_x_20250315_020000.zip"; "shop_20250315_020000.zip"; "shop_20250409_020000.zip" ].

(** ** Evaluation on sample inputs *)

Example ord_20250410 : Calendar.ymd2ord 2025 4 10 = 739351.
Proof. reflexivity. Qed.
Example ymd_739351 : Calendar.ord2ymd 739351 = (2025, 4, 10).
Proof. reflexivity. Qed.
Example ymd_max : Calendar.ord2ymd Calendar.MAXORDINAL = (9999, 12, 31).
Proof. reflexivity. Qed.
Example ymd_leap_end : Calendar.ord2ymd (Calendar.ymd2ord 2024 12 31) = (2024, 12, 31).
Proof. reflexivity. Qed.
Example iso_20250315 : Calendar.isocalendar 2025 3 15 = (2025, 11).
Proof. reflexivity. Qed.
Example iso_20241230 : Calendar.isocalendar 2024 12 30 = (2025, 1).
Proof. reflexivity. Qed.
Example iso_20210103 : Calendar.isocalendar 2021 1 3 = (2020, 53).
Proof. reflexivity. Qed.
Example stem_zip : PurePath.stem "shop_20250409_020000.zip" = "shop_20250409_020000".
Proof. reflexivity. Qed.
Example stem_dotted : PurePath.stem "my.db_20250105_020000" = "my".
Proof. reflexivity. Qed.
Example stem_hidden : PurePath.stem ".zip" = ".zip".
Proof. reflexivity. Qed.
Example split_ex : Text.split "_" "a__b_" = ["a"; ""; "b"; ""].
Proof. reflexivity. Qed.
Example parse_ok : parse_backup_timestamp "shop_20250409_020000.zip"
  = Some (mk_datetime 2025 4 9 2 0 0 0).
Proof. vm_compute. reflexivity. Qed.
Example parse_short : parse_backup_timestamp "shop_2025015_020000.zip"
  = Some (mk_datetime 2025 1 5 2 0 0 0).
Proof. vm_compute. reflexivity. Qed.
Example parse_bad : parse_backup_timestamp "shop_backup_final.zip" = None.
Proof. vm_compute. reflexivity. Qed.
Example parse_feb30 : parse_backup_timestamp "shop_20250230_020000.zip" = None.
Proof. vm_compute. reflexivity. Qed.
Example parse_trailing : parse_backup_timestamp "shop_20250220_0200001.zip" = None.
Proof. vm_compute. reflexivity. Qed.
Example parse_lenient_time : parse_backup_timestamp "shop_20250105_2000.zip"
  = Some (mk_datetime 2025 1 5 20 0 0 0).
Proof. vm_compute. reflexivity. Qed.
Example parse_lenient_time2 : parse_backup_timestamp "shop_20250105_0200.zip"
  = Some (mk_datetime 2025 1 5 2 0 0 0).
Proof. vm_compute. reflexivity. Qed.
Example parse_second_60 : parse_backup_timestamp "shop_20250105_020060.zip" = None.
Proof. vm_compute. reflexivity. Qed.
Example parse_year_0 : parse_backup_timestamp "shop_00000105_020000.zip" = None.
Proof. vm_compute. reflexivity. Qed.
Example parse_blank_day : parse_backup_timestamp "shop_2025 105_020000.zip" = None.
Proof. vm_compute. reflexivity. Qed.
Example parse_month_13 : parse_backup_timestamp "shop_2025135_020000.zip" = None.
Proof. vm_compute. reflexivity. Qed.
Example parse_no_prefix : parse_backup_timestamp "_20250101_000000"
  = Some (mk_datetime 2025 1 1 0 0 0 0).
Proof. vm_compute. reflexivity. Qed.
Example strftime_year_999 :
  Strftime.strftime (mk_datetime 999 1 2 3 4 5 0) = "9990102_030405".
Proof. vm_compute. reflexivity. Qed.
Example name_ex : get_backup_name "shop" (mk_datetime 2025 4 9 2 0 0 123) = "shop_20250409_020000".
Proof. vm_compute. reflexivity. Qed.
Example sub_ex : dt_sub (mk_datetime 2025 4 10 0 0 0 5) (timedelta 7 0) = Some (mk_datetime 2025 4 3 0 0 0 5).
Proof. vm_compute. reflexivity. Qed.
Example sub_ex2 : dt_sub (mk_datetime 2025 4 10 0 0 0 5) (timedelta 90 0) = Some (mk_datetime 2025 1 10 0 0 0 5).
Proof. vm_compute. reflexivity. Qed.
Example sub_ovf : dt_sub (mk_datetime 1 1 10 0 0 0 5) (timedelta 90 0) = None.
Proof. vm_compute. reflexivity. Qed.

Example demo_plan : rotation_plan "shop" demo_now demo_dir = Some demo_plan_value.
Proof. vm_compute. reflexivity. Qed.
Example tie_plan :
  rotation_plan "shop" demo_now tie_dir =
  Some (mk_plan (list_to_set ["shop_20250409_020000.zip"; "shop_20250315_020000.zip"])
                ["shop_x_20250315_020000.zip"] []).
Proof. vm_compute. reflexivity. Qed.
Example demo_run :
  rotate_backups "shop" demo_now (mk_world demo_dir {[ "shop_20250301_020000.zip" ]} []) =
  (Ok tt, mk_world ["shop_20250409_020000.zip"; "shop_20250301_020000.zip"; "shop_20250305_020000.zip";
     "notadb_20250409_020000.zip"; "shop_backup_final.zip"; "shop_20250315_100000.zip" ]
     {[ "shop_20250301_020000.zip" ]}
     [Info_skipping "shop_backup_final.zip"; Info_deleting "shop_20250101_020000.zip";
      Info_deleting "shop_20250301_020000.zip"; Warning_cannot_delete "shop_20250301_020000.zip" OSError;
      Info_deleting "shop_20250315_020000.zip"]).
Proof. vm_compute. reflexivity. Qed.

(** ** The order on datetimes *)

Section dt_order.

Lemma lex_Lt c1 c2 : lex c1 c2 = Lt ↔ c1 = Lt ∨ (c1 = Eq ∧ c2 = Lt).
Proof. destruct c1; simpl; intuition congruence. Qed.

Lemma lex_Eq c1 c2 : lex c1 c2 = Eq ↔ c1 = Eq ∧ c2 = Eq.
Proof. destruct c1; simpl; intuition congruence. Qed.

Lemma dt_cmp_Lt a b : dt_cmp a b = Lt ↔ dt_ltP a b.
Proof.
  unfold dt_cmp, dt_ltP.
  rewrite !lex_Lt, !Z.compare_lt_iff, !Z.compare_eq_iff. tauto.
Qed.

Lemma dt_cmp_Eq a b : dt_cmp a b = Eq ↔ a = b.
Proof.
  unfold dt_cmp. rewrite !lex_Eq, !Z.compare_eq_iff.
  destruct a, b; simpl. split; [intros; f_equal; tauto | intros [= -> -> -> -> -> -> ->]; tauto].
Qed.

Lemma dt_cmp_Gt a b : dt_cmp a b = Gt ↔ dt_ltP b a.
Proof.
  split; intros H.
  - destruct (dt_cmp b a) eqn:E.
    + apply dt_cmp_Eq in E as ->.
      assert (dt_cmp a a = Eq) as Hr by (by apply dt_cmp_Eq). congruence.
    + by apply dt_cmp_Lt.
    + clear -H E. unfold dt_cmp in *.
      destruct a, b; simpl in *.
      repeat match goal with
      | H : context [?x ?= ?y] |- _ =>
          destruct (Z.compare_spec x y); simpl in *; try congruence; try lia
      end.
  - destruct (dt_cmp a b) eqn:E; [| |done].
    + apply dt_cmp_Eq in E as ->. unfold dt_ltP in H. lia.
    + apply dt_cmp_Lt in E. unfold dt_ltP in *. lia.
Qed.

Lemma dt_lt_iff a b : dt_lt a b = true ↔ dt_ltP a b.
Proof. unfold dt_lt. rewrite <- dt_cmp_Lt. destruct (dt_cmp a b); intuition congruence. Qed.

Lemma dt_le_iff a b : dt_le a b = true ↔ dt_ltP a b ∨ a = b.
Proof.
  unfold dt_le. rewrite <- dt_cmp_Lt, <- dt_cmp_Eq.
  destruct (dt_cmp a b); intuition congruence.
Qed.

Lemma dt_ltP_irrefl a : ¬ dt_ltP a a.
Proof. unfold dt_ltP. lia. Qed.

Lemma dt_ltP_trans a b c : dt_ltP a b → dt_ltP b c → dt_ltP a c.
Proof. unfold dt_ltP. lia. Qed.

Lemma dt_ltP_total a b : dt_ltP a b ∨ a = b ∨ dt_ltP b a.
Proof.
  destruct (dt_cmp a b) eqn:E.
  - right; left. by apply dt_cmp_Eq.
  - left. by apply dt_cmp_Lt.
  - right; right. by apply dt_cmp_Gt.
Qed.

Lemma dt_le_refl a : dt_le a a = true.
Proof. apply dt_le_iff. by right. Qed.

Lemma dt_le_trans a b c : dt_le a b = true → dt_le b c = true → dt_le a c = true.
Proof.
  rewrite !dt_le_iff. intros [H1| ->] [H2| ->]; eauto using dt_ltP_trans.
Qed.

Lemma dt_lt_le_trans a b c : dt_lt a b = true → dt_le b c = true → dt_lt a c = true.
Proof.
  rewrite !dt_lt_iff, dt_le_iff. intros H1 [H2| ->]; eauto using dt_ltP_trans.
Qed.

Lemma dt_le_lt_trans a b c : dt_le a b = true → dt_lt b c = true → dt_lt a c = true.
Proof.
  rewrite !dt_lt_iff, dt_le_iff. intros [H1| ->] H2; eauto using dt_ltP_trans.
Qed.

Lemma dt_lt_not_le a b : dt_lt a b = true ↔ dt_le b a = false.
Proof.
  rewrite dt_lt_iff, <- not_true_iff_false, dt_le_iff.
  destruct (dt_ltP_total a b) as [H|[->|H]].
  - split; [|done]. intros _ [H'| ->].
    + eapply dt_ltP_irrefl, dt_ltP_trans; eauto.
    + by eapply dt_ltP_irrefl.
  - split; [intros H; by apply dt_ltP_irrefl in H | intros H; destruct H; by right].
  - split; [|intros H'; destruct H'; by left].
    intros H'. destruct (dt_ltP_irrefl a). eapply dt_ltP_trans; eauto.
Qed.

Lemma dt_le_antisym a b : dt_le a b = true → dt_le b a = true → a = b.
Proof.
  rewrite !dt_le_iff. intros [H1| ->] [H2| H2]; try done.
  destruct (dt_ltP_irrefl a). eapply dt_ltP_trans; eauto.
Qed.

Lemma dt_lt_le a b : dt_lt a b = true → dt_le a b = true.
Proof. rewrite dt_lt_iff, dt_le_iff. tauto. Qed.

Lemma dt_le_total a b : dt_le a b = true ∨ dt_lt b a = true.
Proof.
  rewrite dt_le_iff, dt_lt_iff. destruct (dt_ltP_total a b) as [H|[->|H]]; tauto.
Qed.

End dt_order.

(** ** Calendar arithmetic: ordinals and dates are inverse and monotone *)

Module CalendarFacts.
Import Calendar.

Lemma month_day_spec leap n :
  0 <= n < 365 + b2z leap →
  1 <= (month_day leap n).1 <= 12 ∧
  1 <= (month_day leap n).2
    <= DAYS_IN_MONTH (month_day leap n).1 + b2z (((month_day leap n).1 =? 2) && leap) ∧
  DAYS_BEFORE_MONTH (month_day leap n).1 + b2z ((2 <? (month_day leap n).1) && leap)
    + (month_day leap n).2 = n + 1.
Proof.
  intros Hn.
  assert (n ∈ seqZ 0 (365 + b2z leap)) as Hin by (apply elem_of_seqZ; lia).
  clear Hn. revert n Hin. apply Forall_forall.
  destruct leap; apply (bool_decide_unpack _); vm_compute; exact I.
Qed.

Lemma days_before_year_cycles a b c e :
  0 <= b <= 3 → 0 <= c <= 24 → 0 <= e <= 3 →
  days_before_year (400 * a + 100 * b + 4 * c + e + 1)
  = DI400Y * a + DI100Y * b + DI4Y * c + 365 * e.
Proof.
  intros Hb Hc He. unfold days_before_year, DI400Y, DI100Y, DI4Y.
  replace (400 * a + 100 * b + 4 * c + e + 1 - 1) with (400 * a + 100 * b + 4 * c + e) by lia.
  assert ((400 * a + 100 * b + 4 * c + e) / 4 = 100 * a + 25 * b + c) as ->.
  { symmetry. apply (Z.div_unique _ 4 _ e); lia. }
  assert ((400 * a + 100 * b + 4 * c + e) / 100 = 4 * a + b) as ->.
  { symmetry. apply (Z.div_unique _ 100 _ (4 * c + e)); lia. }
  assert ((400 * a + 100 * b + 4 * c + e) / 400 = a) as ->.
  { symmetry. apply (Z.div_unique _ 400 _ (100 * b + 4 * c + e)); lia. }
  lia.
Qed.

Lemma is_leap_cycles a b c e :
  0 <= b <= 3 → 0 <= c <= 24 → 0 <= e <= 3 →
  is_leap (400 * a + 100 * b + 4 * c + e + 1)
  = (e =? 3) && (negb (c =? 24) || (b =? 3)).
Proof.
  intros Hb Hc He. unfold is_leap.
  set (y := 400 * a + 100 * b + 4 * c + e + 1).
  assert (y mod 4 = (e + 1) mod 4) as ->.
  { unfold y. replace (400 * a + 100 * b + 4 * c + e + 1)
      with (e + 1 + (100 * a + 25 * b + c) * 4) by lia. apply Z_mod_plus_full. }
  assert (y mod 100 = (4 * c + e + 1) mod 100) as ->.
  { unfold y. replace (400 * a + 100 * b + 4 * c + e + 1)
      with (4 * c + e + 1 + (4 * a + b) * 100) by lia. apply Z_mod_plus_full. }
  assert (y mod 400 = (100 * b + 4 * c + e + 1) mod 400) as ->.
  { unfold y. replace (400 * a + 100 * b + 4 * c + e + 1)
      with (100 * b + 4 * c + e + 1 + a * 400) by lia. apply Z_mod_plus_full. }
  clear y.
  assert (e = 0 ∨ e = 1 ∨ e = 2 ∨ e = 3) as He' by lia.
  destruct He' as [->|[->|[->| ->]]]; try reflexivity.
  change ((3 + 1) mod 4 =? 0) with true. simpl andb.
  destruct (Z.eqb_spec c 24) as [->|Hc24].
  - simpl negb. simpl orb.
    assert (b = 0 ∨ b = 1 ∨ b = 2 ∨ b = 3) as Hb' by lia.
    destruct Hb' as [->|[->|[->| ->]]]; reflexivity.
  - simpl negb. simpl orb.
    rewrite (Z.mod_small (4 * c + 3 + 1) 100) by lia.
    destruct (Z.eqb_spec (4 * c + 3 + 1) 0); [lia|]. reflexivity.
Qed.

(** The date of an ordinal is a valid date, and its ordinal is the one
    we started from. *)
Lemma ord2ymd_spec n :
  1 <= n →
  1 <= (ord2ymd n).1.2 <= 12 ∧
  1 <= (ord2ymd n).2 <= days_in_month (ord2ymd n).1.1 (ord2ymd n).1.2 ∧
  ymd2ord (ord2ymd n).1.1 (ord2ymd n).1.2 (ord2ymd n).2 = n.
Proof.
  intros Hn. unfold ord2ymd.
  set (n0 := n - 1).
  pose proof (Z.div_mod n0 DI400Y ltac:(done)) as E1.
  pose proof (Z.mod_pos_bound n0 DI400Y ltac:(done)) as B1.
  set (a := n0 / DI400Y) in *. set (r1 := n0 mod DI400Y) in *.
  pose proof (Z.div_mod r1 DI100Y ltac:(done)) as E2.
  pose proof (Z.mod_pos_bound r1 DI100Y ltac:(done)) as B2.
  set (b := r1 / DI100Y) in *. set (r2 := r1 mod DI100Y) in *.
  pose proof (Z.div_mod r2 DI4Y ltac:(done)) as E3.
  pose proof (Z.mod_pos_bound r2 DI4Y ltac:(done)) as B3.
  set (c := r2 / DI4Y) in *. set (r3 := r2 mod DI4Y) in *.
  pose proof (Z.div_mod r3 365 ltac:(done)) as E4.
  pose proof (Z.mod_pos_bound r3 365 ltac:(done)) as B4.
  set (e := r3 / 365) in *. set (r4 := r3 mod 365) in *.
  unfold DI400Y, DI100Y, DI4Y in E1, B1, E2, B2, E3, B3.
  assert (0 <= b <= 4) as Hb by lia.
  assert (0 <= c <= 24) as Hc by lia.
  assert (0 <= e <= 4) as He by lia.
  destruct (Z.eqb_spec e 4) as [He4|He4]; simpl orb.
  { (* the last day of a leap year ending a four-year cycle *)
    simpl fst; simpl snd.
    assert (b <= 3 ∧ c <= 23) as [Hb3 Hc3] by lia.
    replace (a * 400 + 1 + (b * 100 + c * 4 + e) - 1)
      with (400 * a + 100 * b + 4 * c + 3 + 1) by lia.
    unfold ymd2ord, days_before_month, days_in_month.
    rewrite days_before_year_cycles, is_leap_cycles by lia.
    destruct (Z.eqb_spec c 24); [lia|].
    unfold DI400Y, DI100Y, DI4Y. simpl. lia. }
  destruct (Z.eqb_spec b 4) as [Hb4|Hb4].
  { (* the last day of a 400-year cycle *)
    simpl fst; simpl snd.
    assert (c = 0 ∧ e = 0) as [-> ->] by lia.
    replace (a * 400 + 1 + (b * 100 + 0 * 4 + 0) - 1)
      with (400 * a + 100 * 3 + 4 * 24 + 3 + 1) by lia.
    unfold ymd2ord, days_before_month, days_in_month.
    rewrite days_before_year_cycles, is_leap_cycles by lia.
    unfold DI400Y, DI100Y, DI4Y. simpl. lia. }
  set (leapyear := (e =? 3) && (negb (c =? 24) || (b =? 3))).
  pose proof (month_day_spec leapyear r4) as Hmd.
  destruct (month_day leapyear r4) as [m d] eqn:Emd. simpl fst in *; simpl snd in *.
  destruct Hmd as (Hm & Hd & Hsum); [destruct leapyear; simpl; lia|].
  replace (a * 400 + 1 + (b * 100 + c * 4 + e))
    with (400 * a + 100 * b + 4 * c + e + 1) by lia.
  unfold ymd2ord, days_before_month, days_in_month.
  rewrite days_before_year_cycles, is_leap_cycles by lia.
  fold leapyear. split; [done|]. split.
  - destruct (Z.eqb_spec m 2) as [->|Hm2]; simpl andb in *.
    + destruct leapyear; simpl in *; lia.
    + simpl in Hd. lia.
  - unfold DI400Y, DI100Y, DI4Y. lia.
Qed.

Lemma days_before_year_succ y :
  days_before_year (y + 1) = days_before_year y + 365 + b2z (is_leap y).
Proof.
  unfold days_before_year, is_leap.
  replace (y + 1 - 1) with y by lia.
  destruct (Z.eqb_spec (y mod 4) 0), (Z.eqb_spec (y mod 100) 0),
    (Z.eqb_spec (y mod 400) 0); simpl; Z.div_mod_to_equations; lia.
Qed.

Lemma days_before_year_mono y y' :
  y <= y' → days_before_year y <= days_before_year y'.
Proof.
  intros H. replace y' with (y + Z.of_nat (Z.to_nat (y' - y))) by lia.
  induction (Z.to_nat (y' - y)) as [|k IH]; [by rewrite Z.add_0_r|].
  replace (y + Z.of_nat (S k)) with (y + Z.of_nat k + 1) by lia.
  rewrite days_before_year_succ. destruct (is_leap _); simpl; lia.
Qed.

Lemma day_of_year_bound y m d :
  1 <= m <= 12 → 1 <= d <= days_in_month y m →
  1 <= days_before_month y m + d <= 365 + b2z (is_leap y).
Proof.
  intros Hm. unfold days_before_month, days_in_month.
  assert (m = 1 ∨ m = 2 ∨ m = 3 ∨ m = 4 ∨ m = 5 ∨ m = 6 ∨ m = 7 ∨ m = 8 ∨ m = 9
          ∨ m = 10 ∨ m = 11 ∨ m = 12) as Hcases by lia.
  destruct (is_leap y);
    repeat (destruct Hcases as [->|Hcases]; [simpl; lia|]); subst; simpl; lia.
Qed.

Lemma day_of_year_mono y m d m' d' :
  1 <= m <= 12 → 1 <= d <= days_in_month y m →
  1 <= m' <= 12 → 1 <= d' <= days_in_month y m' →
  m < m' →
  days_before_month y m + d < days_before_month y m' + d'.
Proof.
  intros Hm Hd Hm' Hd' Hlt.
  assert (days_before_month y m + d <= days_before_month y (m + 1)) as H1.
  { assert (m <= 11) as Hm11 by lia. clear Hm' Hd' Hlt. revert Hd Hm11.
    unfold days_before_month, days_in_month.
    assert (m = 1 ∨ m = 2 ∨ m = 3 ∨ m = 4 ∨ m = 5 ∨ m = 6 ∨ m = 7 ∨ m = 8 ∨ m = 9
            ∨ m = 10 ∨ m = 11 ∨ m = 12) as Hcases by lia.
    destruct (is_leap y);
      repeat (destruct Hcases as [->|Hcases]; [simpl; lia|]); subst; simpl; lia. }
  assert (days_before_month y (m + 1) <= days_before_month y m') as H2.
  { assert (m + 1 <= m') as Hle by lia. clear -Hm Hm' Hle.
    unfold days_before_month.
    assert (m = 1 ∨ m = 2 ∨ m = 3 ∨ m = 4 ∨ m = 5 ∨ m = 6 ∨ m = 7 ∨ m = 8 ∨ m = 9
            ∨ m = 10 ∨ m = 11 ∨ m = 12) as Hcases by lia.
    assert (m' = 1 ∨ m' = 2 ∨ m' = 3 ∨ m' = 4 ∨ m' = 5 ∨ m' = 6 ∨ m' = 7 ∨ m' = 8
            ∨ m' = 9 ∨ m' = 10 ∨ m' = 11 ∨ m' = 12) as Hcases' by lia.
    destruct (is_leap y);
      repeat (destruct Hcases as [->|Hcases]);
      repeat (destruct Hcases' as [->|Hcases']); subst; simpl; lia. }
  lia.
Qed.

(** On valid dates the ordinal is strictly monotone for the order of
    the (year, month, day) tuples. *)
Lemma ymd2ord_lt y m d y' m' d' :
  1 <= m <= 12 → 1 <= d <= days_in_month y m →
  1 <= m' <= 12 → 1 <= d' <= days_in_month y' m' →
  date_lt (y, m, d) (y', m', d') →
  ymd2ord y m d < ymd2ord y' m' d'.
Proof.
  intros Hm Hd Hm' Hd'. unfold date_lt. simpl. unfold ymd2ord.
  intros [Hy|[-> [Hmm|[-> Hdd]]]].
  - pose proof (day_of_year_bound y m d Hm Hd).
    pose proof (day_of_year_bound y' m' d' Hm' Hd').
    pose proof (days_before_year_succ y).
    pose proof (days_before_year_mono (y + 1) y' ltac:(lia)). lia.
  - pose proof (day_of_year_mono y' m d m' d' Hm Hd Hm' Hd' Hmm). lia.
  - lia.
Qed.

Lemma ord2ymd_mono n n' :
  1 <= n → n < n' → date_lt (ord2ymd n) (ord2ymd n').
Proof.
  intros Hn Hlt.
  destruct (ord2ymd_spec n Hn) as (Hm & Hd & Ho).
  destruct (ord2ymd_spec n' ltac:(lia)) as (Hm' & Hd' & Ho').
  destruct (ord2ymd n) as [[y m] d], (ord2ymd n') as [[y' m'] d']. simpl in *.
  assert (date_lt (y, m, d) (y', m', d') ∨ (y, m, d) = (y', m', d')
          ∨ date_lt (y', m', d') (y, m, d)) as [H|[H|H]]; [|done| |].
  - unfold date_lt. simpl.
    destruct (Z.lt_total y y') as [?|[->|?]]; [lia| |lia].
    destruct (Z.lt_total m m') as [?|[->|?]]; [lia| |lia].
    destruct (Z.lt_total d d') as [?|[->|?]]; [lia| |lia].
    right; by left.
  - simplify_eq. lia.
  - apply ymd2ord_lt in H; [lia|done..].
Qed.

Lemma ymd2ord_range y m d :
  check_date_fields y m d = true → 1 <= ymd2ord y m d <= MAXORDINAL.
Proof.
  unfold check_date_fields, MINYEAR, MAXYEAR. intros H.
  repeat (apply andb_prop in H as [H ?]).
  assert (1 <= y <= 9999 ∧ 1 <= m <= 12 ∧ 1 <= d <= days_in_month y m)
    as (Hy & Hm & Hd) by lia.
  pose proof (day_of_year_bound y m d Hm Hd).
  pose proof (days_before_year_succ y).
  pose proof (days_before_year_mono (y + 1) 10000 ltac:(lia)) as Hhi.
  pose proof (days_before_year_mono 1 y ltac:(lia)) as Hlo.
  change (days_before_year 10000) with 3652059 in Hhi.
  change (days_before_year 1) with 0 in Hlo.
  unfold ymd2ord, MAXORDINAL. lia.
Qed.

End CalendarFacts.

(** ** The cutoffs of a run *)

Section cutoffs.
Import Calendar CalendarFacts.

Lemma valid_time_fields t :
  valid_datetime t →
  0 <= hour t <= 23 ∧ 0 <= minute t <= 59 ∧ 0 <= second t <= 59 ∧
  0 <= microsecond t <= 999999.
Proof.
  intros [_ H]. unfold check_time_fields in H.
  repeat (apply andb_prop in H as [H ?]). lia.
Qed.

Lemma toordinal_range t : valid_datetime t → 1 <= toordinal t <= MAXORDINAL.
Proof. intros [H _]. by apply ymd2ord_range. Qed.

(** Adding whole days to a valid datetime moves the date and leaves the
    time of day alone. *)
Lemma dt_add_eq t n :
  valid_datetime t →
  dt_add t n =
  if (0 <? toordinal t + n) && (toordinal t + n <=? MAXORDINAL)
  then Some (mk_datetime (ord2ymd (toordinal t + n)).1.1
                         (ord2ymd (toordinal t + n)).1.2
                         (ord2ymd (toordinal t + n)).2
                         (hour t) (minute t) (second t) (microsecond t))
  else None.
Proof.
  intros Hv. destruct (valid_time_fields t Hv) as (Hh & Hmi & Hs & Hus).
  unfold dt_add.
  rewrite (Z.div_small (microsecond t)), (Z.mod_small (microsecond t)) by lia.
  rewrite Z.add_0_r.
  set (secs := hour t * 3600 + minute t * 60 + second t).
  assert (0 <= secs < 86400) as Hsecs by (unfold secs; lia).
  rewrite (Z.div_small secs), (Z.mod_small secs), Z.add_0_r by lia.
  assert (secs / 3600 = hour t) as ->.
  { symmetry. apply (Z.div_unique _ 3600 _ (minute t * 60 + second t)); unfold secs; lia. }
  assert (secs mod 3600 = minute t * 60 + second t) as ->.
  { symmetry. apply (Z.mod_unique _ 3600 (hour t)); unfold secs; lia. }
  assert ((minute t * 60 + second t) / 60 = minute t) as ->.
  { symmetry. apply (Z.div_unique _ 60 _ (second t)); lia. }
  assert ((minute t * 60 + second t) mod 60 = second t) as ->.
  { symmetry. apply (Z.mod_unique _ 60 (minute t)); lia. }
  destruct ((0 <? toordinal t + n) && (toordinal t + n <=? MAXORDINAL)); [|done].
  by destruct (ord2ymd (toordinal t + n)) as [[??]?].
Qed.

Lemma dt_add_valid t n :
  valid_datetime t →
  0 < toordinal t + n <= MAXORDINAL →
  dt_add t n = Some (mk_datetime (ord2ymd (toordinal t + n)).1.1
                                 (ord2ymd (toordinal t + n)).1.2
                                 (ord2ymd (toordinal t + n)).2
                                 (hour t) (minute t) (second t) (microsecond t)).
Proof.
  intros Hv Hr. rewrite dt_add_eq by done.
  destruct (Z.ltb_spec 0 (toordinal t + n)); [|lia].
  destruct (Z.leb_spec (toordinal t + n) MAXORDINAL); [done|lia].
Qed.

Lemma dt_add_Some_range t n a :
  valid_datetime t → dt_add t n = Some a → 0 < toordinal t + n <= MAXORDINAL.
Proof.
  intros Hv. rewrite dt_add_eq by done.
  destruct (Z.ltb_spec 0 (toordinal t + n)); [|done].
  destruct (Z.leb_spec (toordinal t + n) MAXORDINAL); [lia|done].
Qed.

Lemma dt_add_mono t n n' a b :
  valid_datetime t →
  dt_add t n = Some a → dt_add t n' = Some b → n <= n' → dt_le a b = true.
Proof.
  intros Hv Ha Hb Hle.
  pose proof (dt_add_Some_range _ _ _ Hv Ha) as Hn.
  pose proof (dt_add_Some_range _ _ _ Hv Hb) as Hn'.
  rewrite dt_add_valid in Ha, Hb by done. simplify_eq.
  apply dt_le_iff.
  destruct (decide (n = n')) as [->|Hne]; [by right|left].
  pose proof (ord2ymd_mono (toordinal t + n) (toordinal t + n') ltac:(lia) ltac:(lia)) as H.
  unfold date_lt in H. unfold dt_ltP. simpl. lia.
Qed.

(** With a usable clock the three cutoffs exist and are ordered. *)
Lemma cutoffs_ok now :
  clock_ok now →
  ∃ dc wc mc, cutoffs now = Some (dc, wc, mc) ∧
              dt_le mc wc = true ∧ dt_le wc dc = true.
Proof.
  intros [Hv Hord]. pose proof (toordinal_range now Hv) as Hr.
  unfold cutoffs, dt_sub, timedelta.
  destruct (dt_add now (- (7 + 7 * 0))) as [dc|] eqn:Edc;
    [|rewrite dt_add_valid in Edc by (done || lia); done].
  destruct (dt_add now (- (0 + 7 * 4))) as [wc|] eqn:Ewc;
    [|rewrite dt_add_valid in Ewc by (done || lia); done].
  destruct (dt_add now (- (90 + 7 * 0))) as [mc|] eqn:Emc;
    [|rewrite dt_add_valid in Emc by (done || lia); done].
  exists dc, wc, mc. split; [done|].
  split; eapply dt_add_mono; eauto; lia.
Qed.

End cutoffs.

(** ** The bucket loops *)

Section buckets.
Context (lo hi : datetime) (key : datetime → Z * Z).

Lemma bucket_step_lookup (m : gmap (Z * Z) entry) e k :
  bucket_step lo hi key m e !! k = pick_step lo hi key k (m !! k) e.
Proof.
  destruct e as [f ts]. unfold bucket_step, pick_step, in_bucket, in_range. simpl.
  destruct (dt_le lo ts && dt_lt ts hi); simpl; [|done].
  destruct (decide (key ts = k)) as [<-|Hne].
  - rewrite bool_decide_eq_true_2 by done.
    destruct (m !! key ts) as [[g best]|] eqn:E; simpl.
    + destruct (dt_gt ts best); [by rewrite lookup_insert_eq|done].
    + by rewrite lookup_insert_eq.
  - rewrite bool_decide_eq_false_2 by done.
    destruct (m !! key ts) as [[g best]|] eqn:E; simpl.
    + destruct (dt_gt ts best); [by rewrite lookup_insert_ne|done].
    + by rewrite lookup_insert_ne.
Qed.

Lemma bucket_fold_lookup (l : list entry) (m : gmap (Z * Z) entry) k :
  fold_left (bucket_step lo hi key) l m !! k
  = fold_left (pick_step lo hi key k) l (m !! k).
Proof.
  revert m. induction l as [|e l IH]; intros m; simpl; [done|].
  by rewrite IH, bucket_step_lookup.
Qed.

Context (k : Z * Z).
Let P := in_bucket lo hi key k.
Let pick := fold_left (pick_step lo hi key k).

Lemma pick_snoc (l : list entry) x acc : pick (l ++ [x]) acc = pick_step lo hi key k (pick l acc) x.
Proof. unfold pick. by rewrite fold_left_app. Qed.

Lemma pick_None (l : list entry) : pick l None = None ↔ ∀ x, x ∈ l → P x = false.
Proof.
  induction l as [|x l IH] using rev_ind.
  - split; [|done]. intros _ x Hx. by apply elem_of_nil in Hx.
  - rewrite pick_snoc. unfold pick_step. fold P. split.
    + intros H y Hy. destruct (P x) eqn:Px.
      * destruct (pick l None); [by destruct (dt_gt _ _)|done].
      * apply elem_of_app in Hy as [Hy|Hy]; [by apply IH|].
        by apply list_elem_of_singleton in Hy as ->.
    + intros H. rewrite (H x) by (apply elem_of_app; right; by left).
      apply IH. intros y Hy. apply H, elem_of_app. by left.
Qed.

Lemma first_latest_bounds (l : list entry) e x :
  first_latest P l e → x ∈ l → P x = true → dt_le x.2 e.2 = true.
Proof.
  intros (l1 & l2 & -> & He & H1 & H2) Hx Px.
  apply elem_of_app in Hx as [Hx|Hx]; [by apply dt_lt_le, H1|].
  apply elem_of_cons in Hx as [->|Hx]; [apply dt_le_refl|by apply H2].
Qed.

Lemma first_latest_elem (l : list entry) e : first_latest P l e → e ∈ l ∧ P e = true.
Proof.
  intros (l1 & l2 & -> & He & _). split; [|done].
  apply elem_of_app. right. by left.
Qed.

Lemma pick_Some_1 (l : list entry) e : pick l None = Some e → first_latest P l e.
Proof.
  revert e. induction l as [|x l IH] using rev_ind; intros e; [done|].
  rewrite pick_snoc. unfold pick_step. fold P.
  destruct (P x) eqn:Px.
  - destruct (pick l None) as [b|] eqn:Eb.
    + specialize (IH b eq_refl).
      destruct (dt_gt x.2 b.2) eqn:Egt; intros [= <-].
      * exists l, []. split; [done|]. split; [done|]. split.
        -- intros y Hy Py. eapply dt_le_lt_trans; [|exact Egt].
           by eapply first_latest_bounds.
        -- intros y Hy. by apply elem_of_nil in Hy.
      * destruct IH as (l1 & l2 & -> & Hb & H1 & H2).
        exists l1, (l2 ++ [x]). split; [by rewrite <- app_assoc|].
        split; [done|]. split; [done|].
        intros y Hy Py. apply elem_of_app in Hy as [Hy|Hy]; [by apply H2|].
        apply list_elem_of_singleton in Hy as ->.
        destruct (dt_le_total x.2 b.2) as [?|Hlt]; [done|].
        unfold dt_gt in Egt. congruence.
    + intros [= <-]. exists l, []. split; [done|]. split; [done|]. split.
      * intros y Hy Py. apply pick_None with (x := y) in Eb; [congruence|done].
      * intros y Hy. by apply elem_of_nil in Hy.
  - intros H. destruct (IH e H) as (l1 & l2 & -> & Hb & H1 & H2).
    exists l1, (l2 ++ [x]). split; [by rewrite <- app_assoc|].
    split; [done|]. split; [done|].
    intros y Hy Py. apply elem_of_app in Hy as [Hy|Hy]; [by apply H2|].
    apply list_elem_of_singleton in Hy as ->. congruence.
Qed.

Lemma pick_keeps (l : list entry) e :
  (∀ x, x ∈ l → P x = true → dt_le x.2 e.2 = true) → pick l (Some e) = Some e.
Proof.
  induction l as [|x l IH] using rev_ind; intros H; [done|].
  rewrite pick_snoc, IH.
  - unfold pick_step. fold P. destruct (P x) eqn:Px; [|done].
    unfold dt_gt. destruct (dt_lt e.2 x.2) eqn:Elt; [|done].
    apply dt_lt_not_le in Elt. rewrite H in Elt; [done| |done].
    apply elem_of_app. right. by left.
  - intros y Hy. apply H, elem_of_app. by left.
Qed.

Lemma pick_app (l1 l2 : list entry) acc : pick (l1 ++ l2) acc = pick l2 (pick l1 acc).
Proof. unfold pick. by rewrite fold_left_app. Qed.

Lemma pick_Some_2 (l : list entry) e : first_latest P l e → pick l None = Some e.
Proof.
  intros (l1 & l2 & -> & He & H1 & H2).
  rewrite pick_app. unfold pick at 1. simpl. fold pick.
  assert (pick_step lo hi key k (pick l1 None) e = Some e) as ->; [|by apply pick_keeps].
  unfold pick_step. fold P. rewrite He.
  destruct (pick l1 None) as [b|] eqn:Eb; [|done].
  apply pick_Some_1, first_latest_elem in Eb as [Hb Pb].
  unfold dt_gt. by rewrite H1.
Qed.

Lemma pick_Some (l : list entry) e : pick l None = Some e ↔ first_latest P l e.
Proof. split; [apply pick_Some_1|apply pick_Some_2]. Qed.

(** The entry a bucket ends with is the first of the latest entries of
    the bucket; a bucket is absent exactly when no entry falls in it. *)
Lemma buckets_lookup_Some (l : list entry) e :
  fold_left (bucket_step lo hi key) l ∅ !! k = Some e
  ↔ first_latest (in_bucket lo hi key k) l e.
Proof. rewrite bucket_fold_lookup, lookup_empty. apply pick_Some. Qed.

Lemma buckets_lookup_None (l : list entry) :
  fold_left (bucket_step lo hi key) l ∅ !! k = None
  ↔ ∀ x, x ∈ l → in_bucket lo hi key k x = false.
Proof. rewrite bucket_fold_lookup, lookup_empty. apply pick_None. Qed.

Lemma first_latest_unique (l : list entry) e e' :
  first_latest P l e → first_latest P l e' → e = e'.
Proof. intros H1%pick_Some_2 H2%pick_Some_2. congruence. Qed.

End buckets.

Lemma first_latest_key lo hi key k (l : list entry) e :
  first_latest (in_bucket lo hi key k) l e →
  e ∈ l ∧ in_range lo hi e.2 = true ∧ key e.2 = k.
Proof.
  intros [He Hb]%first_latest_elem. split; [done|].
  unfold in_bucket in Hb. apply andb_prop in Hb as [? Hk].
  split; [done|]. by apply bool_decide_eq_true in Hk.
Qed.

(** ** The keep-set *)

Lemma add_values_elem (m : gmap (Z * Z) entry) keep f :
  f ∈ add_values m keep ↔ f ∈ keep ∨ ∃ k ts, m !! k = Some (f, ts).
Proof.
  unfold add_values.
  assert (∀ l : list (Z * Z * entry),
    f ∈ foldr (λ kv keep, {[ kv.2.1 ]} ∪ keep) keep l
    ↔ f ∈ keep ∨ ∃ kv, kv ∈ l ∧ kv.2.1 = f) as Hfold.
  { induction l as [|kv l IH]; simpl.
    - split; [by left|]. intros [?|(kv & Hkv & _)]; [done|]. by apply elem_of_nil in Hkv.
    - rewrite elem_of_union, elem_of_singleton, IH. split.
      + intros [->|[?|(kv' & ? & ?)]]; [right|by left|right].
        * exists kv. split; [by left|done].
        * exists kv'. split; [by right|done].
      + intros [?|(kv' & Hkv & ?)]; [right; by left|].
        apply elem_of_cons in Hkv as [->|?]; [by left|].
        right; right. by exists kv'. }
  rewrite Hfold. split; (intros [?|H]; [by left|right]).
  - destruct H as ([k [g ts]] & Hkv & <-). exists k, ts.
    by apply elem_of_map_to_list in Hkv.
  - destruct H as (k & ts & Hk). exists (k, (f, ts)). split; [|done].
    by apply elem_of_map_to_list.
Qed.

Lemma daily_fold_elem dc (l : list entry) keep f :
  f ∈ fold_left (daily_step dc) l keep
  ↔ f ∈ keep ∨ ∃ ts, (f, ts) ∈ l ∧ dt_ge ts dc = true.
Proof.
  revert keep. induction l as [|[g t] l IH]; intros keep; simpl.
  - split; [by left|]. intros [?|(ts & H & _)]; [done|]. by apply elem_of_nil in H.
  - rewrite IH. destruct (dt_ge t dc) eqn:E.
    + rewrite elem_of_union, elem_of_singleton. split.
      * intros [[->|?]|(ts & ? & ?)]; [right|by left|right].
        -- exists t. split; [by left|done].
        -- exists ts. split; [by right|done].
      * intros [?|(ts & H & ?)]; [left; by right|].
        apply elem_of_cons in H as [[= -> ->]|?]; [left; by left|].
        right. by exists ts.
    + split.
      * intros [?|(ts & ? & ?)]; [by left|right]. exists ts. split; [by right|done].
      * intros [?|(ts & H & ?)]; [by left|].
        apply elem_of_cons in H as [[= -> ->]|?]; [congruence|].
        right. by exists ts.
Qed.

(** A path is in [keep] when its entry is in the daily range, or ends as
    the entry of a weekly bucket, or of a monthly bucket. *)
Lemma keep_for_elem dc wc mc (es : list entry) f :
  f ∈ keep_for dc wc mc es ↔
    (∃ ts, (f, ts) ∈ es ∧ dt_ge ts dc = true)
    ∨ (∃ k ts, first_latest (in_bucket wc dc iso_year_week k) es (f, ts))
    ∨ (∃ k ts, first_latest (in_bucket mc wc year_month k) es (f, ts)).
Proof.
  unfold keep_for, weekly_of, monthly_of.
  rewrite !add_values_elem, daily_fold_elem.
  setoid_rewrite buckets_lookup_Some.
  rewrite elem_of_empty. tauto.
Qed.

(** ** Sorting and the entries of a run *)

Lemma sorted_perm l : sorted l ≡ₚ l.
Proof. apply merge_sort_Permutation. Qed.

Lemma sorted_elem l f : f ∈ sorted l ↔ f ∈ l.
Proof. by rewrite sorted_perm. Qed.

Lemma sorted_strongly l : StronglySorted String.le (sorted l).
Proof. apply (StronglySorted_merge_sort _). Qed.

Lemma sorted_NoDup l : NoDup l → NoDup (sorted l).
Proof. by rewrite sorted_perm. Qed.

(** The sorted list does not depend on the order of its input. *)
Lemma sorted_order_irrelevant l1 l2 : l1 ≡ₚ l2 → sorted l1 = sorted l2.
Proof.
  intros H. apply (StronglySorted_unique String.le); [apply sorted_strongly..|].
  by rewrite !sorted_perm.
Qed.

Lemma StronglySorted_filter_str (P : string → Prop) `{!∀ x, Decision (P x)} l :
  StronglySorted String.le l → StronglySorted String.le (filter P l).
Proof.
  induction 1 as [|x l Hs IH Hx]; [constructor|].
  rewrite filter_cons. destruct (decide (P x)); [|done].
  constructor; [done|].
  apply Forall_forall. intros y [_ Hy]%list_elem_of_filter.
  by eapply Forall_forall in Hx.
Qed.

Lemma sorted_filter (P : string → Prop) `{!∀ x, Decision (P x)} l :
  sorted (filter P l) = filter P (sorted l).
Proof.
  apply (StronglySorted_unique String.le).
  - apply sorted_strongly.
  - apply StronglySorted_filter_str, sorted_strongly.
  - rewrite sorted_perm. apply filter_Permutation. by rewrite sorted_perm.
Qed.

Lemma sorted_sorted l : StronglySorted String.le l → sorted l = l.
Proof.
  intros H. apply (StronglySorted_unique String.le); [apply sorted_strongly|done|].
  apply sorted_perm.
Qed.

Lemma candidates_elem db names f :
  f ∈ candidates db names ↔ f ∈ names ∧ fnmatch (db +:+ "_*.zip") f = true.
Proof.
  unfold candidates. rewrite sorted_elem, list_elem_of_filter.
  rewrite Is_true_true. tauto.
Qed.

Lemma candidates_order_irrelevant db l1 l2 :
  l1 ≡ₚ l2 → candidates db l1 = candidates db l2.
Proof. intros H. apply sorted_order_irrelevant. by apply filter_Permutation. Qed.

Lemma entries_of_elem files f ts :
  (f, ts) ∈ entries_of files ↔ f ∈ files ∧ parse_backup_timestamp f = Some ts.
Proof.
  unfold entries_of. rewrite list_elem_of_omap. split.
  - intros (g & Hg & H). destruct (parse_backup_timestamp g) eqn:E; simplify_eq/=. done.
  - intros [Hf H]. exists f. split; [done|]. by rewrite H.
Qed.

Lemma entries_of_fst files :
  (entries_of files).*1 = filter (λ f, parse_backup_timestamp f ≠ None) files.
Proof.
  induction files as [|f files IH]; [done|].
  unfold entries_of in *. rewrite filter_cons. simpl.
  destruct (decide (parse_backup_timestamp f ≠ None)) as [Hp|Hp];
    destruct (parse_backup_timestamp f) eqn:E; simpl; try done.
  - f_equal. apply IH.
  - by destruct Hp.
Qed.

Lemma entries_of_filter (P : string → Prop) `{!∀ x, Decision (P x)} files :
  entries_of (filter P files) = filter (λ e : entry, P e.1) (entries_of files).
Proof.
  induction files as [|f files IH]; [done|].
  unfold entries_of in *. rewrite filter_cons.
  destruct (decide (P f)) as [HP|HP]; csimpl.
  - destruct (parse_backup_timestamp f) eqn:E; csimpl; [|done].
    rewrite filter_cons_True by done. by rewrite IH.
  - destruct (parse_backup_timestamp f) eqn:E; csimpl; [|done].
    by rewrite filter_cons_False.
Qed.

Lemma entries_of_time files e e' :
  e ∈ entries_of files → e' ∈ entries_of files → e.1 = e'.1 → e = e'.
Proof.
  destruct e as [f t], e' as [f' t'].
  intros [_ H]%entries_of_elem [_ H']%entries_of_elem ?. simplify_eq/=. congruence.
Qed.

Lemma delete_for_elem keep (es : list entry) f :
  f ∈ delete_for keep es ↔ (f ∉ keep) ∧ ∃ ts, (f, ts) ∈ es.
Proof.
  unfold delete_for. rewrite list_elem_of_fmap. split.
  - intros ([g ts] & -> & [Hk He]%list_elem_of_filter). split; [done|]. by exists ts.
  - intros [Hk [ts He]]. exists (f, ts). split; [done|].
    by apply list_elem_of_filter.
Qed.

Lemma keep_for_nil dc wc mc : keep_for dc wc mc [] = ∅.
Proof. reflexivity. Qed.

(** With a usable clock the plan exists, and is given by one formula
    whether or not an entry parsed. *)
Lemma rotation_plan_ok db now names :
  clock_ok now →
  ∃ dc wc mc,
    cutoffs now = Some (dc, wc, mc) ∧ dt_le mc wc = true ∧ dt_le wc dc = true ∧
    rotation_plan db now names =
      Some (mk_plan (keep_for dc wc mc (entries_of (candidates db names)))
                    (delete_for (keep_for dc wc mc (entries_of (candidates db names)))
                                (entries_of (candidates db names)))
                    (skipped_of (candidates db names))).
Proof.
  intros Hc. destruct (cutoffs_ok now Hc) as (dc & wc & mc & Ecut & H1 & H2).
  exists dc, wc, mc. repeat split; try done.
  unfold rotation_plan. destruct (decide (entries_of _ = [])) as [->|Hne].
  - by rewrite keep_for_nil.
  - by rewrite Ecut.
Qed.

(** ** The effects of a run *)

Lemma filter_all {A} (P : A → Prop) `{!∀ x, Decision (P x)} (l : list A) :
  (∀ x, x ∈ l → P x) → filter P l = l.
Proof.
  induction l as [|x l IH]; intros Hall; [done|].
  rewrite filter_cons_True by (apply Hall; by left).
  f_equal. apply IH. intros y Hy. apply Hall. by right.
Qed.

Lemma remaining_nil R names : remaining R [] names = names.
Proof. apply filter_all. intros x _. left. apply not_elem_of_nil. Qed.

Lemma remaining_elem R ds names g :
  g ∈ remaining R ds names ↔ g ∈ names ∧ (g ∉ ds ∨ g ∈ R).
Proof. unfold remaining. rewrite list_elem_of_filter. tauto. Qed.

Lemma removal_events_cons R f ds :
  removal_events R (f :: ds) =
  (if decide (f ∈ R) then [Info_deleting f; Warning_cannot_delete f OSError]
   else [Info_deleting f]) ++ removal_events R ds.
Proof. reflexivity. Qed.

Lemma parse_loop files acc w :
  for_each files parse_step acc w =
  (Ok (acc ++ entries_of files),
   mk_world (listing w) (refused w) (log w ++ (Info_skipping <$> skipped_of files))).
Proof.
  revert acc w. induction files as [|f files IH]; intros acc w.
  - destruct w. simpl. unfold ret. by rewrite !app_nil_r.
  - simpl. unfold bind, parse_step, skipped_of, entries_of.
    rewrite filter_cons. csimpl.
    destruct (parse_backup_timestamp f) as [ts|] eqn:E; csimpl.
    + unfold ret. rewrite IH.
      unfold entries_of, skipped_of. by rewrite <- app_assoc.
    + unfold logging. simpl. rewrite IH. simpl.
      unfold entries_of, skipped_of. by rewrite <- app_assoc.
Qed.

Lemma delete_loop keep (es : list entry) w :
  NoDup es.*1 → (∀ e, e ∈ es → e.1 ∈ listing w) →
  for_each es (delete_step keep) tt w =
  (Ok tt,
   mk_world (remaining (refused w) (delete_for keep es) (listing w)) (refused w)
            (log w ++ removal_events (refused w) (delete_for keep es))).
Proof.
  revert w. induction es as [|[f ts] es IH]; intros w Hnd Hin.
  - destruct w. simpl. unfold ret. by rewrite remaining_nil, app_nil_r.
  - rewrite fmap_cons in Hnd. apply NoDup_cons in Hnd as [Hf Hnd]. simpl in Hf.
    assert (f ∈ listing w) as Hfw by (apply (Hin (f, ts)); by left).
    simpl. unfold bind. unfold delete_for. rewrite filter_cons. simpl.
    destruct (decide (f ∈ keep)) as [Hk|Hk].
    + rewrite decide_False by (intros H; by apply H).
      unfold ret. apply IH; [done|]. intros e He. apply Hin. by right.
    + rewrite decide_True by done. rewrite fmap_cons. simpl.
      fold (delete_for keep es).
      unfold try_except, unlink. simpl.
      destruct (decide (f ∈ refused w)) as [HR|HR].
      * rewrite decide_True by (by left). simpl.
        rewrite IH; simpl; [|done|intros e He; apply Hin; by right].
        rewrite <- !app_assoc. simpl. do 2 f_equal.
        apply list_filter_iff. intros g. rewrite not_elem_of_cons.
        split; [|tauto]. intros [H|H]; [|by right].
        destruct (decide (g = f)) as [->|?]; [by right|by left].
      * rewrite decide_False by tauto. simpl.
        rewrite IH; simpl; [|done|].
        -- rewrite <- !app_assoc. simpl. do 2 f_equal.
           unfold remaining. rewrite list_filter_filter.
           apply list_filter_iff. intros g. rewrite not_elem_of_cons.
           split; [tauto|]. intros [[? ?]|H]; [tauto|].
           split; [by right|]. by intros ->.
        -- intros e He. apply list_elem_of_filter. split.
           ++ intros Heq. apply Hf. rewrite <- Heq. by apply list_elem_of_fmap_2.
           ++ apply Hin. by right.
Qed.

Lemma candidates_NoDup db names : NoDup names → NoDup (candidates db names).
Proof. intros H. by apply sorted_NoDup, NoDup_filter. Qed.

Lemma entries_of_NoDup files : NoDup files → NoDup (entries_of files).*1.
Proof. intros H. rewrite entries_of_fst. by apply NoDup_filter. Qed.

(** A run with a usable clock on a directory (a duplicate-free listing)
    returns normally; it logs the skipped names, then for each path of the
    plan's delete-set, in order, logs the deletion, attempts it, and logs a
    warning when the removal is refused; the paths whose removal succeeded
    are gone and nothing else changed. *)
Lemma rotate_backups_run db now w :
  clock_ok now → NoDup (listing w) →
  ∃ p, rotation_plan db now (listing w) = Some p ∧
       rotate_backups db now w =
       (Ok tt,
        mk_world (remaining (refused w) (deleted p) (listing w)) (refused w)
                 (log w ++ (Info_skipping <$> skipped p)
                        ++ removal_events (refused w) (deleted p))).
Proof.
  intros Hc Hnd.
  destruct (rotation_plan_ok db now (listing w) Hc) as (dc & wc & mc & Ecut & _ & _ & Ep).
  eexists. split; [exact Ep|]. simpl.
  unfold rotate_backups, bind, glob. fold (candidates db (listing w)).
  set (files := candidates db (listing w)) in *.
  destruct (decide (files = [])) as [E|E].
  - rewrite E. unfold ret. destruct w. simpl.
    by rewrite remaining_nil, !app_nil_r.
  - rewrite parse_loop. simpl.
    destruct (decide (entries_of files = [])) as [E'|E'].
    + rewrite E'. unfold ret. simpl. by rewrite remaining_nil, !app_nil_r.
    + rewrite Ecut. simpl. rewrite delete_loop; simpl.
      * by rewrite <- app_assoc.
      * apply entries_of_NoDup. by apply candidates_NoDup.
      * intros [f ts] [Hf _]%entries_of_elem. simpl.
        by apply candidates_elem in Hf as [? _].
Qed.

(** ** Tiers and survivors *)

Lemma bucket_has_survivor lo hi key k (es : list entry) e :
  e ∈ es → in_bucket lo hi key k e = true →
  ∃ s, first_latest (in_bucket lo hi key k) es s.
Proof.
  intros He Hb.
  destruct (fold_left (bucket_step lo hi key) es ∅ !! k) as [s|] eqn:E.
  - exists s. by apply buckets_lookup_Some.
  - rewrite buckets_lookup_None in E. rewrite (E e He) in Hb. done.
Qed.

Lemma first_latest_filter (P : entry → bool) (Q : entry → Prop)
    `{!∀ x, Decision (Q x)} (l : list entry) e :
  first_latest P l e → Q e → first_latest P (filter Q l) e.
Proof.
  intros (l1 & l2 & -> & He & H1 & H2) HQ.
  exists (filter Q l1), (filter Q l2).
  rewrite filter_app, filter_cons_True by done. split; [done|]. split; [done|].
  split; intros x [_ Hx]%list_elem_of_filter; auto.
Qed.

Lemma in_bucket_own lo hi key (e : entry) :
  in_range lo hi e.2 = true → in_bucket lo hi key (key e.2) e = true.
Proof. intros H. unfold in_bucket. by rewrite H, bool_decide_eq_true_2. Qed.

Section tiers.
Context (dc wc mc : datetime).
Context (Hmw : dt_le mc wc = true) (Hwd : dt_le wc dc = true).

(** The three ranges are pairwise disjoint. *)
Lemma tiers_disjoint ts :
  ¬ (dt_ge ts dc = true ∧ in_range wc dc ts = true) ∧
  ¬ (dt_ge ts dc = true ∧ in_range mc wc ts = true) ∧
  ¬ (in_range wc dc ts = true ∧ in_range mc wc ts = true).
Proof.
  unfold dt_ge, in_range. repeat split.
  - intros [H1 [_ H2]%andb_prop]. apply dt_lt_not_le in H2. congruence.
  - intros [H1 [_ H2]%andb_prop].
    pose proof (dt_lt_le_trans _ _ _ H2 Hwd) as H3.
    apply dt_lt_not_le in H3. congruence.
  - intros [[H1 _]%andb_prop [_ H2]%andb_prop].
    apply dt_lt_not_le in H2. congruence.
Qed.

(** Older than the monthly cutoff: in no range. *)
Lemma expired_no_tier ts :
  dt_lt ts mc = true →
  dt_ge ts dc = false ∧ in_range wc dc ts = false ∧ in_range mc wc ts = false.
Proof.
  intros H. unfold dt_ge, in_range.
  pose proof (dt_lt_le_trans _ _ _ H Hmw) as Hw.
  pose proof (dt_lt_le_trans _ _ _ Hw Hwd) as Hd.
  apply dt_lt_not_le in H, Hw, Hd. by rewrite H, Hw, Hd.
Qed.

Context (es : list entry).
Context (Hfun : ∀ e e', e ∈ es → e' ∈ es → e.1 = e'.1 → e = e').
Let keep := keep_for dc wc mc es.

Lemma kept_is_entry f : f ∈ keep → ∃ ts, (f, ts) ∈ es.
Proof.
  intros [(ts & H & _)|[(k & ts & H)|(k & ts & H)]]%keep_for_elem.
  - by exists ts.
  - exists ts. by apply first_latest_key in H as [? _].
  - exists ts. by apply first_latest_key in H as [? _].
Qed.

Lemma kept_daily e : e ∈ es → dt_ge e.2 dc = true → e.1 ∈ keep.
Proof.
  intros He Hd. apply keep_for_elem. left. exists e.2. by destruct e.
Qed.

Lemma kept_cases e :
  e ∈ es → e.1 ∈ keep →
  dt_ge e.2 dc = true
  ∨ first_latest (in_bucket wc dc iso_year_week (iso_year_week e.2)) es e
  ∨ first_latest (in_bucket mc wc year_month (year_month e.2)) es e.
Proof.
  intros He [(ts & H & Hd)|[(k & ts & H)|(k & ts & H)]]%keep_for_elem.
  - left. by rewrite <- (Hfun _ _ H He eq_refl).
  - right; left. pose proof (first_latest_key _ _ _ _ _ _ H) as (Hin & _ & Hk).
    rewrite <- (Hfun _ _ Hin He eq_refl). simpl in *. by rewrite Hk.
  - right; right. pose proof (first_latest_key _ _ _ _ _ _ H) as (Hin & _ & Hk).
    rewrite <- (Hfun _ _ Hin He eq_refl). simpl in *. by rewrite Hk.
Qed.

Lemma kept_weekly e :
  e ∈ es → in_range wc dc e.2 = true →
  e.1 ∈ keep ↔ first_latest (in_bucket wc dc iso_year_week (iso_year_week e.2)) es e.
Proof.
  intros He Hr. split.
  - intros [Hd|[H|H]]%kept_cases; [|done| |done].
    + destruct (tiers_disjoint e.2) as (Hx & _). tauto.
    + apply first_latest_key in H as (_ & Hm & _).
      destruct (tiers_disjoint e.2) as (_ & _ & Hx). tauto.
  - intros H. apply keep_for_elem. right; left.
    exists (iso_year_week e.2), e.2. by destruct e.
Qed.

Lemma kept_monthly e :
  e ∈ es → in_range mc wc e.2 = true →
  e.1 ∈ keep ↔ first_latest (in_bucket mc wc year_month (year_month e.2)) es e.
Proof.
  intros He Hr. split.
  - intros [Hd|[H|H]]%kept_cases; [| |done|done].
    + destruct (tiers_disjoint e.2) as (_ & Hx & _). tauto.
    + apply first_latest_key in H as (_ & Hm & _).
      destruct (tiers_disjoint e.2) as (_ & _ & Hx). tauto.
  - intros H. apply keep_for_elem. right; right.
    exists (year_month e.2), e.2. by destruct e.
Qed.

Lemma kept_expired e : e ∈ es → dt_lt e.2 mc = true → e.1 ∉ keep.
Proof.
  intros He Hlt Hk. destruct (expired_no_tier e.2 Hlt) as (Hd & Hw & Hm).
  apply kept_cases in Hk as [H|[H|H]]; [congruence| | |done].
  - apply first_latest_key in H as (_ & ? & _). congruence.
  - apply first_latest_key in H as (_ & ? & _). congruence.
Qed.

(** In a bucket of a tier, the survivor is kept, is the only entry of the
    bucket that is, and no entry of the bucket is later. *)
Lemma weekly_survivor e :
  e ∈ es → in_range wc dc e.2 = true →
  ∃ s, sole_survivor keep (in_bucket wc dc iso_year_week (iso_year_week e.2)) es s.
Proof.
  intros He Hr.
  destruct (bucket_has_survivor wc dc iso_year_week (iso_year_week e.2) es e)
    as [s Hs]; [done|by apply in_bucket_own|].
  pose proof (first_latest_key _ _ _ _ _ _ Hs) as (Hsin & Hsr & Hsk).
  exists s. split; [done|]. split; [by eapply first_latest_elem|].
  split; [apply kept_weekly; [done..|by rewrite Hsk]|]. split.
  - intros x Hx Hb Hkx. unfold in_bucket in Hb.
    apply andb_prop in Hb as [Hxr Hxk]. apply bool_decide_eq_true in Hxk.
    apply kept_weekly in Hkx; [|done..]. rewrite Hxk in Hkx.
    by eapply first_latest_unique.
  - intros x Hx Hb. by eapply first_latest_bounds.
Qed.

Lemma monthly_survivor e :
  e ∈ es → in_range mc wc e.2 = true →
  ∃ s, sole_survivor keep (in_bucket mc wc year_month (year_month e.2)) es s.
Proof.
  intros He Hr.
  destruct (bucket_has_survivor mc wc year_month (year_month e.2) es e)
    as [s Hs]; [done|by apply in_bucket_own|].
  pose proof (first_latest_key _ _ _ _ _ _ Hs) as (Hsin & Hsr & Hsk).
  exists s. split; [done|]. split; [by eapply first_latest_elem|].
  split; [apply kept_monthly; [done..|by rewrite Hsk]|]. split.
  - intros x Hx Hb Hkx. unfold in_bucket in Hb.
    apply andb_prop in Hb as [Hxr Hxk]. apply bool_decide_eq_true in Hxk.
    apply kept_monthly in Hkx; [|done..]. rewrite Hxk in Hkx.
    by eapply first_latest_unique.
  - intros x Hx Hb. by eapply first_latest_bounds.
Qed.

End tiers.

(** ** The codec: text helpers *)

Module TextFacts.
Import Text.

Lemma split_nonempty sep s : split sep s ≠ [].
Proof.
  destruct s as [|a r]; simpl; [done|].
  destruct (chr_eqb a sep); [done|]. by destruct (split sep r).
Qed.

Lemma split_app sep a b :
  split sep (a +:+ String sep b) = split sep a ++ split sep b.
Proof.
  induction a as [|c a IH].
  - change ("" +:+ String sep b) with (String sep b). simpl.
    unfold chr_eqb. by rewrite bool_decide_eq_true_2.
  - change (String c a +:+ String sep b) with (String c (a +:+ String sep b)).
    simpl. rewrite IH. destruct (chr_eqb c sep); [done|].
    pose proof (split_nonempty sep a). by destruct (split sep a).
Qed.

Lemma split_plain sep s : contains sep s = false → split sep s = [s].
Proof.
  induction s as [|c s IH]; simpl; [done|].
  intros [H1 H2]%orb_false_elim. rewrite H1, (IH H2). done.
Qed.

Lemma rfind_plain c s : contains c s = false → rfind c s = -1.
Proof.
  induction s as [|a s IH]; simpl; [done|].
  intros [H1 H2]%orb_false_elim. rewrite (IH H2), H1. done.
Qed.

Lemma contains_app c a b : contains c (a +:+ b) = contains c a || contains c b.
Proof.
  induction a as [|x a IH]; [done|].
  change (String x a +:+ b) with (String x (a +:+ b)). simpl.
  by rewrite IH, orb_assoc.
Qed.

Lemma last_n_app {A} (l k : list A) : last_n (length k) (l ++ k) = k.
Proof.
  unfold last_n. rewrite length_app.
  replace (length l + length k - length k)%nat with (length l) by lia.
  by rewrite drop_app_length.
Qed.

Lemma name_plain s :
  contains "/" s = false → s ≠ "" → s ≠ "." → PurePath.name s = s.
Proof.
  intros H ? ?. unfold PurePath.name. rewrite split_plain by done.
  rewrite filter_cons_True by done. done.
Qed.

Lemma stem_plain s :
  contains "/" s = false → contains "." s = false → s ≠ "" → PurePath.stem s = s.
Proof.
  intros H1 H2 H3. unfold PurePath.stem.
  rewrite name_plain; [|done..|by intros ->].
  by rewrite rfind_plain.
Qed.

End TextFacts.

(** ** The codec: [strptime] undoes [strftime] *)

Module CodecFacts.
Import Strftime Strptime.

Lemma digit_cases n :
  digit n = "0"%char ∨ digit n = "1"%char ∨ digit n = "2"%char ∨ digit n = "3"%char ∨
  digit n = "4"%char ∨ digit n = "5"%char ∨ digit n = "6"%char ∨ digit n = "7"%char ∨
  digit n = "8"%char ∨ digit n = "9"%char.
Proof.
  unfold digit. pose proof (Z.mod_pos_bound n 10 ltac:(done)) as H.
  generalize dependent (n mod 10). intros r H.
  assert (r ∈ seqZ 0 10) as Hc by (apply elem_of_seqZ; lia).
  vm_compute in Hc.
  repeat (apply elem_of_cons in Hc as [->|Hc]; [vm_compute; tauto|]).
  by apply elem_of_nil in Hc.
Qed.

Lemma digit_between n : between "0" "9" (digit n) = true.
Proof.
  destruct (digit_cases n) as [->|[->|[->|[->|[->|[->|[->|[->|[->| ->]]]]]]]]];
    reflexivity.
Qed.

Lemma digit_val n : Z.of_N (N_of_ascii (digit n)) - 48 = n mod 10.
Proof.
  unfold digit. pose proof (Z.mod_pos_bound n 10 ltac:(done)) as H.
  rewrite N_ascii_embedding by lia. lia.
Qed.

Lemma digit_other c n : between "0" "9" c = false → Text.chr_eqb (digit n) c = false.
Proof.
  intros H. unfold Text.chr_eqb. apply bool_decide_eq_false. intros <-.
  by rewrite digit_between in H.
Qed.

Lemma head_bind {A B} (l : list A) (k : A → list B) x y :
  head l = Some x → head (k x) = Some y → head (l ≫= k) = Some y.
Proof.
  destruct l as [|a l]; simpl; [done|]. intros [= ->] H.
  by destruct (k x).
Qed.

Lemma dig_digit n r : dig (String (digit n) r) = [(String (digit n) "", r)].
Proof. unfold dig, rng, one. by rewrite digit_between. Qed.

Lemma cat_single (a b : matcher) s x r y r' :
  a s = [(x, r)] → b r = [(y, r')] → cat a b s = [(x +:+ y, r')].
Proof. unfold cat. intros -> Hb. csimpl. rewrite Hb. reflexivity. Qed.

Lemma re_Y_head a b c d rest :
  re_Y (String (digit a) (String (digit b) (String (digit c) (String (digit d) rest))))
  = [(String (digit a) (String (digit b) (String (digit c) (String (digit d) ""))), rest)].
Proof.
  unfold re_Y. etrans.
  { eapply cat_single; [apply dig_digit|].
    eapply cat_single; [apply dig_digit|].
    eapply cat_single; apply dig_digit. }
  reflexivity.
Qed.

Ltac enum v lo n :=
  let Hc := fresh "Hc" in
  assert (v ∈ seqZ lo n) as Hc by (apply elem_of_seqZ; lia);
  vm_compute in Hc;
  repeat (apply elem_of_cons in Hc as [->|Hc]; [reflexivity|]);
  by apply elem_of_nil in Hc.

Lemma re_m_head v rest :
  1 <= v <= 12 → head (re_m (pad2 v +:+ rest)) = Some (pad2 v, rest).
Proof. intros H. enum v 1 12. Qed.

Lemma re_d_head v rest :
  1 <= v <= 31 → head (re_d (pad2 v +:+ rest)) = Some (pad2 v, rest).
Proof. intros H. enum v 1 31. Qed.

Lemma re_H_head v rest :
  0 <= v <= 23 → head (re_H (pad2 v +:+ rest)) = Some (pad2 v, rest).
Proof. intros H. enum v 0 24. Qed.

Lemma re_M_head v rest :
  0 <= v <= 59 → head (re_M (pad2 v +:+ rest)) = Some (pad2 v, rest).
Proof. intros H. enum v 0 60. Qed.

Lemma re_S_head v rest :
  0 <= v <= 59 → head (re_S (pad2 v +:+ rest)) = Some (pad2 v, rest).
Proof. intros H. enum v 0 60. Qed.

Lemma int_pad2 v : 0 <= v <= 99 → int (pad2 v) = v.
Proof.
  intros H. unfold int, pad2. simpl. rewrite !digit_between, !digit_val.
  Z.div_mod_to_equations. lia.
Qed.

Lemma int_pad4 v : 0 <= v <= 9999 → int (pad4 v) = v.
Proof.
  intros H. unfold int, pad4, pad2. simpl. rewrite !digit_between, !digit_val.
  Z.div_mod_to_equations. lia.
Qed.

Lemma valid_fields t :
  valid_datetime t →
  1 <= year t <= 9999 ∧ 1 <= month t <= 12 ∧ 1 <= day t <= 31 ∧
  0 <= hour t <= 23 ∧ 0 <= minute t <= 59 ∧ 0 <= second t <= 59.
Proof.
  destruct t as [y m d h mi s us]. simpl.
  intros [Hd Ht]. simpl in Hd, Ht. unfold check_date_fields, check_time_fields in *.
  unfold Calendar.MINYEAR, Calendar.MAXYEAR in *.
  repeat (apply andb_prop in Hd as [Hd ?]). repeat (apply andb_prop in Ht as [Ht ?]).
  assert (Calendar.days_in_month y m <= 31).
  { unfold Calendar.days_in_month.
    destruct ((m =? 2) && Calendar.is_leap y); [lia|].
    assert (m ∈ seqZ 1 12) as Hc by (apply elem_of_seqZ; lia).
    vm_compute in Hc.
    repeat (apply elem_of_cons in Hc as [->|Hc]; [simpl; lia|]).
    by apply elem_of_nil in Hc. }
  lia.
Qed.

Lemma year_text_four v : 1000 <= v → year_text v = pad4 v.
Proof.
  intros H. unfold year_text.
  destruct (Z.ltb_spec v 10); [lia|]. destruct (Z.ltb_spec v 100); [lia|].
  destruct (Z.ltb_spec v 1000); [lia|]. done.
Qed.

Lemma str_app_assoc (a b c : string) : (a +:+ b) +:+ c = a +:+ b +:+ c.
Proof.
  induction a as [|x a IH]; [done|].
  change ((String x a +:+ b) +:+ c) with (String x ((a +:+ b) +:+ c)).
  by rewrite IH.
Qed.

(** The text of a datetime, its date part and its time part. *)
Lemma strftime_parts t :
  strftime t =
  (year_text (year t) +:+ pad2 (month t) +:+ pad2 (day t)) +:+
  String "_" (pad2 (hour t) +:+ pad2 (minute t) +:+ pad2 (second t)).
Proof. unfold strftime. by rewrite !str_app_assoc. Qed.

Lemma pad2_plain c v : between "0" "9" c = false → Text.contains c (pad2 v) = false.
Proof. intros H. unfold pad2. simpl. by rewrite !digit_other. Qed.

Lemma pad4_plain c v : between "0" "9" c = false → Text.contains c (pad4 v) = false.
Proof. intros H. unfold pad4, pad2. simpl. by rewrite !digit_other. Qed.

Lemma year_text_plain c v :
  between "0" "9" c = false → Text.contains c (year_text v) = false.
Proof.
  intros H. unfold year_text.
  destruct (v <? 10); [simpl; by rewrite digit_other|].
  destruct (v <? 100); [by apply pad2_plain|].
  destruct (v <? 1000); [|by apply pad4_plain].
  simpl. by rewrite !digit_other.
Qed.

Lemma strftime_plain c t :
  between "0" "9" c = false → c ≠ "_"%char → Text.contains c (strftime t) = false.
Proof.
  intros H Hc. rewrite strftime_parts, !TextFacts.contains_app.
  rewrite year_text_plain, !pad2_plain by done.
  cbn [Text.contains]. rewrite !TextFacts.contains_app, !pad2_plain by done.
  unfold Text.chr_eqb. rewrite bool_decide_eq_false_2 by done. done.
Qed.

Lemma strptime_strftime t :
  valid_datetime t → microsecond t = 0 → 1000 <= year t →
  strptime (strftime t) = Some t.
Proof.
  intros Hv Hus Hyear.
  pose proof (valid_fields t Hv) as (HY & Hm & Hd & HH & HM & HS).
  unfold strftime. rewrite year_text_four by done.
  set (txt := pad4 (year t) +:+ _).
  assert (head (format_regex txt) =
          Some (pad4 (year t), pad2 (month t), pad2 (day t),
                pad2 (hour t), pad2 (minute t), pad2 (second t), "")) as Hhead.
  { unfold format_regex.
    eapply head_bind.
    { change txt with
        (String (digit (year t / 1000)) (String (digit (year t / 100))
          (String (digit (year t / 10)) (String (digit (year t))
            (pad2 (month t) +:+ pad2 (day t) +:+ String "_"
               (pad2 (hour t) +:+ pad2 (minute t) +:+ pad2 (second t))))))).
      rewrite re_Y_head. reflexivity. }
    eapply head_bind; [by apply re_m_head|].
    eapply head_bind; [by apply re_d_head|].
    eapply head_bind; [reflexivity|].
    eapply head_bind; [by apply re_H_head|].
    eapply head_bind; [by apply re_M_head|].
    eapply head_bind.
    { change (pad2 (second t)) with (pad2 (second t) +:+ "") at 1.
      by apply re_S_head. }
    reflexivity. }
  unfold strptime. destruct (format_regex txt) as [|r rs]; [done|].
  simpl in Hhead. injection Hhead as ->.
  rewrite bool_decide_eq_true_2 by done.
  rewrite int_pad4, !int_pad2 by lia.
  unfold datetime_new. destruct Hv as [Hvd Hvt]. rewrite Hus in Hvt.
  rewrite Hvd, Hvt. simpl.
  destruct t; simpl in *. by subst.
Qed.

End CodecFacts.

Section codec.
Import Strftime TextFacts CodecFacts.

Lemma get_backup_name_split name t :
  Text.split "_" (get_backup_name name t) =
  Text.split "_" name ++
    [year_text (year t) +:+ pad2 (month t) +:+ pad2 (day t);
     pad2 (hour t) +:+ pad2 (minute t) +:+ pad2 (second t)].
Proof.
  unfold get_backup_name.
  change (name +:+ "_" +:+ strftime t) with (name +:+ String "_" (strftime t)).
  rewrite split_app, strftime_parts, split_app. f_equal.
  rewrite !split_plain; [done|..];
    rewrite !contains_app, ?year_text_plain, ?pad2_plain; done.
Qed.

(** Parsing the text of a backup name whose stem is the name itself. *)
Lemma parse_of_stem s name t :
  valid_datetime t → microsecond t = 0 → 1000 <= year t →
  PurePath.stem s = get_backup_name name t →
  parse_backup_timestamp s = Some t.
Proof.
  intros Hv Hus Hyear Hstem. unfold parse_backup_timestamp.
  rewrite Hstem, get_backup_name_split.
  rewrite length_app. simpl length.
  destruct (Nat.ltb_spec (length (Text.split "_" name) + 2) 2); [lia|].
  change 2%nat with (length [year_text (year t) +:+ pad2 (month t) +:+ pad2 (day t);
     pad2 (hour t) +:+ pad2 (minute t) +:+ pad2 (second t)]) at 1.
  rewrite last_n_app.
  change (Text.join "_" _) with
    ((year_text (year t) +:+ pad2 (month t) +:+ pad2 (day t)) +:+
     String "_" (pad2 (hour t) +:+ pad2 (minute t) +:+ pad2 (second t))).
  rewrite <- strftime_parts. by apply strptime_strftime.
Qed.

End codec.

(** ** Facts shared by the retention properties *)

Lemma ord2ymd_ymd2ord y m d :
  1 <= m <= 12 → 1 <= d <= Calendar.days_in_month y m →
  1 <= Calendar.ymd2ord y m d →
  Calendar.ord2ymd (Calendar.ymd2ord y m d) = (y, m, d).
Proof.
  intros Hm Hd Ho.
  destruct (CalendarFacts.ord2ymd_spec _ Ho) as (Hm' & Hd' & Heq).
  destruct (Calendar.ord2ymd (Calendar.ymd2ord y m d)) as [[y' m'] d']. simpl in *.
  destruct (Z.lt_total y' y) as [?|[->|?]].
  - pose proof (CalendarFacts.ymd2ord_lt y' m' d' y m d Hm' Hd' Hm Hd) as Hx.
    unfold date_lt in Hx. simpl in Hx. lia.
  - destruct (Z.lt_total m' m) as [?|[->|?]].
    + pose proof (CalendarFacts.ymd2ord_lt y m' d' y m d Hm' Hd' Hm Hd) as Hx.
      unfold date_lt in Hx. simpl in Hx. lia.
    + unfold Calendar.ymd2ord in Heq. f_equal. lia.
    + pose proof (CalendarFacts.ymd2ord_lt y m d y m' d' Hm Hd Hm' Hd') as Hx.
      unfold date_lt in Hx. simpl in Hx. lia.
  - pose proof (CalendarFacts.ymd2ord_lt y m d y' m' d' Hm Hd Hm' Hd') as Hx.
    unfold date_lt in Hx. simpl in Hx. lia.
Qed.

Lemma dt_add_0 t : valid_datetime t → dt_add t 0 = Some t.
Proof.
  intros Hv. pose proof (toordinal_range t Hv) as Hr.
  rewrite dt_add_valid by (done || lia). rewrite Z.add_0_r.
  destruct Hv as [Hd _]. unfold check_date_fields in Hd.
  repeat (apply andb_prop in Hd as [Hd ?]).
  unfold toordinal in *. rewrite ord2ymd_ymd2ord by lia. by destruct t.
Qed.

Lemma cutoffs_subs now dc wc mc :
  cutoffs now = Some (dc, wc, mc) →
  dt_sub now 7 = Some dc ∧ dt_sub now 28 = Some wc ∧ dt_sub now 90 = Some mc.
Proof.
  unfold cutoffs. change (timedelta 7 0) with 7. change (timedelta 0 4) with 28.
  change (timedelta 90 0) with 90.
  destruct (dt_sub now 7), (dt_sub now 28), (dt_sub now 90); simpl; try done.
  by intros [= -> -> ->].
Qed.

(** With a usable clock the run has cutoffs and a plan. *)
Lemma run_of_ok db now names :
  clock_ok now →
  ∃ dc wc mc p,
    run_of db now names dc wc mc p ∧
    dt_le mc wc = true ∧ dt_le wc dc = true ∧ dt_le dc now = true ∧
    kept p = keep_for dc wc mc (entries_of (candidates db names)) ∧
    deleted p = delete_for (kept p) (entries_of (candidates db names)) ∧
    skipped p = skipped_of (candidates db names).
Proof.
  intros Hc.
  destruct (rotation_plan_ok db now names Hc) as (dc & wc & mc & Ecut & H1 & H2 & Ep).
  pose proof (cutoffs_subs _ _ _ _ Ecut) as (Ed & Ew & Em).
  eexists dc, wc, mc, _. unfold run_of. rewrite Ep. repeat split; try done.
  destruct Hc as [Hv _]. unfold dt_sub in Ed.
  eapply (dt_add_mono now (-7) 0); [done|done|by apply dt_add_0|lia].
Qed.

Lemma entries_fun db names e e' :
  e ∈ entries_of (candidates db names) → e' ∈ entries_of (candidates db names) →
  e.1 = e'.1 → e = e'.
Proof. apply entries_of_time. Qed.

Lemma entries_sorted db names :
  StronglySorted String.le (entries_of (candidates db names)).*1.
Proof.
  rewrite entries_of_fst. apply StronglySorted_filter_str, sorted_strongly.
Qed.

(** In a list sorted by path, the first of the latest entries of a bucket
    has the least path among the bucket's entries with its timestamp. *)
Lemma first_latest_least_path (P : entry → bool) (es : list entry) s x :
  StronglySorted String.le es.*1 →
  first_latest P es s → x ∈ es → P x = true → x.2 = s.2 → String.le s.1 x.1.
Proof.
  intros Hs (l1 & l2 & -> & Ps & H1 & H2) Hx Px Heq.
  apply elem_of_app in Hx as [Hx|Hx].
  - specialize (H1 x Hx Px). rewrite Heq in H1.
    apply dt_lt_iff in H1. by apply dt_ltP_irrefl in H1.
  - apply elem_of_cons in Hx as [->|Hx]; [done|].
    rewrite fmap_app, fmap_cons in Hs.
    apply StronglySorted_app in Hs as (_ & _ & Hs).
    apply StronglySorted_cons in Hs as [Hs _].
    eapply Forall_forall in Hs; [exact Hs|]. by apply list_elem_of_fmap_2.
Qed.

Lemma filter_iff_elem {A} (P Q : A → Prop)
    `{!∀ x, Decision (P x), !∀ x, Decision (Q x)} (l : list A) :
  (∀ x, x ∈ l → P x ↔ Q x) → filter P l = filter Q l.
Proof.
  induction l as [|a l IH]; intros Hall; [done|].
  rewrite !filter_cons.
  rewrite IH by (intros x Hx; apply Hall; by right).
  apply decide_ext. apply Hall. by left.
Qed.

(** Dropping entries that are not kept does not change the keep-set. *)
Lemma keep_for_filter dc wc mc (es : list entry) (Q : entry → Prop)
    `{!∀ x, Decision (Q x)} :
  (∀ e, e ∈ es → e.1 ∈ keep_for dc wc mc es → Q e) →
  keep_for dc wc mc (filter Q es) = keep_for dc wc mc es.
Proof.
  intros HQ. apply set_eq. intros f. split.
  - intros [(ts & [_ Hfl]%list_elem_of_filter & Hd)|[(k & ts & Hfl)|(k & ts & Hfl)]]%keep_for_elem.
    + apply keep_for_elem. left. by exists ts.
    + pose proof (first_latest_elem _ _ _ _ _ _ Hfl) as [[_ Hin]%list_elem_of_filter Hb].
      destruct (bucket_has_survivor _ _ _ _ _ _ Hin Hb) as [[g t] Hs].
      assert (g ∈ keep_for dc wc mc es) as Hg.
      { apply keep_for_elem. right; left. by exists k, t. }
      pose proof (first_latest_elem _ _ _ _ _ _ Hs) as [Hsin _].
      pose proof (first_latest_filter _ Q _ _ Hs (HQ _ Hsin Hg)) as Hs'.
      pose proof (first_latest_unique _ _ _ _ _ _ _ Hfl Hs') as [= -> ->]. done.
    + pose proof (first_latest_elem _ _ _ _ _ _ Hfl) as [[_ Hin]%list_elem_of_filter Hb].
      destruct (bucket_has_survivor _ _ _ _ _ _ Hin Hb) as [[g t] Hs].
      assert (g ∈ keep_for dc wc mc es) as Hg.
      { apply keep_for_elem. right; right. by exists k, t. }
      pose proof (first_latest_elem _ _ _ _ _ _ Hs) as [Hsin _].
      pose proof (first_latest_filter _ Q _ _ Hs (HQ _ Hsin Hg)) as Hs'.
      pose proof (first_latest_unique _ _ _ _ _ _ _ Hfl Hs') as [= -> ->]. done.
  - intros Hf. pose proof Hf as Hf'. revert Hf'.
    intros [(ts & Hfl & Hd)|[(k & ts & Hfl)|(k & ts & Hfl)]]%keep_for_elem;
      apply keep_for_elem.
    + left. exists ts. split; [|done]. apply list_elem_of_filter. split; [|done].
      by apply HQ.
    + right; left. exists k, ts. apply first_latest_filter; [done|].
      apply HQ; [|done]. by eapply first_latest_elem.
    + right; right. exists k, ts. apply first_latest_filter; [done|].
      apply HQ; [|done]. by eapply first_latest_elem.
Qed.

(** The candidates of the directory a run leaves behind. *)
Lemma candidates_remaining db R ds names :
  candidates db (remaining R ds names)
  = filter (λ g, g ∉ ds ∨ g ∈ R) (candidates db names).
Proof.
  unfold candidates, remaining.
  rewrite <- sorted_filter. f_equal.
  rewrite !list_filter_filter. apply list_filter_iff. tauto.
Qed.

(** On the directory left by a run, the keep-set is unchanged and the
    delete-set is what the file system refused to remove. *)
Lemma second_run db now names R dc wc mc p1 :
  run_of db now names dc wc mc p1 →
  kept p1 = keep_for dc wc mc (entries_of (candidates db names)) →
  deleted p1 = delete_for (kept p1) (entries_of (candidates db names)) →
  ∃ p2, rotation_plan db now (remaining R (deleted p1) names) = Some p2 ∧
        kept p2 = kept p1 ∧
        ∀ f, f ∈ deleted p2 ↔ f ∈ deleted p1 ∧ f ∈ R.
Proof.
  intros (Ed & Ew & Em & Ep) Hk Hdel.
  set (es := entries_of (candidates db names)) in *.
  assert (∀ g, g ∈ deleted p1 ↔ (g ∉ kept p1) ∧ ∃ ts, (g, ts) ∈ es) as Hd1.
  { intros g. rewrite Hdel at 1. apply delete_for_elem. }
  clear Hdel.
  set (Q := λ e : entry, e.1 ∉ deleted p1 ∨ e.1 ∈ R).
  assert (entries_of (candidates db (remaining R (deleted p1) names)) = filter Q es) as Ees.
  { rewrite candidates_remaining.
    by rewrite (entries_of_filter (λ g, g ∉ deleted p1 ∨ g ∈ R)). }
  assert (keep_for dc wc mc (filter Q es) = kept p1) as Hk2.
  { rewrite Hk. apply keep_for_filter. intros e He Hkept. left.
    rewrite Hd1, Hk. tauto. }
  assert (cutoffs now = Some (dc, wc, mc)) as Ecut.
  { unfold cutoffs. change (timedelta 7 0) with 7. change (timedelta 0 4) with 28.
    change (timedelta 90 0) with 90. by rewrite Ed, Ew, Em. }
  eexists (mk_plan (kept p1) (delete_for (kept p1) (filter Q es)) _).
  split; [|split; [done|]].
  - unfold rotation_plan. rewrite Ees.
    destruct (decide (filter Q es = [])) as [E|E].
    + rewrite E in *. rewrite keep_for_nil in Hk2. by rewrite <- Hk2.
    + rewrite Ecut. simpl. by rewrite Hk2.
  - intros f. simpl. rewrite delete_for_elem, Hd1. split.
    + intros [Hnk [ts [HQ Hin]%list_elem_of_filter]]. unfold Q in HQ. simpl in HQ.
      split; [split; [done|by exists ts]|].
      destruct HQ as [HQ|HQ]; [|done]. destruct HQ.
      apply Hd1. split; [done|by exists ts].
    + intros [[Hnk [ts Hin]] HR]. split; [done|]. exists ts.
      apply list_elem_of_filter. split; [by right|done].
Qed.


(** ** Runs on two enumerations of one directory *)

Lemma unlink_equiv f w1 w2 :
  world_equiv w1 w2 →
  (unlink f w1).1 = (unlink f w2).1 ∧ world_equiv (unlink f w1).2 (unlink f w2).2.
Proof.
  intros (Hl & Hr & Hg). unfold unlink.
  destruct (decide (f ∈ refused w1 ∨ f ∉ listing w1)) as [H1|H1];
    destruct (decide (f ∈ refused w2 ∨ f ∉ listing w2)) as [H2|H2]; simpl.
  - done.
  - destruct H2. rewrite <- Hr, <- Hl. done.
  - destruct H1. rewrite Hr, Hl. done.
  - split; [done|]. split; [|done]. simpl. by apply filter_Permutation.
Qed.

Lemma delete_step_equiv keep e w1 w2 :
  world_equiv w1 w2 →
  (delete_step keep tt e w1).1 = (delete_step keep tt e w2).1 ∧
  world_equiv (delete_step keep tt e w1).2 (delete_step keep tt e w2).2.
Proof.
  intros Hw. destruct e as [f ts]. unfold delete_step.
  destruct (decide (f ∈ keep)); [done|].
  unfold bind, logging, try_except. simpl.
  set (v1 := mk_world (listing w1) (refused w1) (log w1 ++ [Info_deleting f])).
  set (v2 := mk_world (listing w2) (refused w2) (log w2 ++ [Info_deleting f])).
  assert (world_equiv v1 v2) as Hv.
  { destruct Hw as (Hl & Hr & Hg). repeat split; simpl; [done..|by rewrite Hg]. }
  destruct (unlink_equiv f v1 v2 Hv) as [Hres Hw'].
  destruct (unlink f v1) as [r1 u1], (unlink f v2) as [r2 u2]. simpl in *. subst r2.
  destruct r1 as [[]|ex]; [done|]. simpl.
  destruct Hw' as (Hl & Hr & Hg). repeat split; simpl; [done..|by rewrite Hg].
Qed.

Lemma delete_loop_equiv keep es w1 w2 :
  world_equiv w1 w2 →
  (for_each es (delete_step keep) tt w1).1 = (for_each es (delete_step keep) tt w2).1 ∧
  world_equiv (for_each es (delete_step keep) tt w1).2
              (for_each es (delete_step keep) tt w2).2.
Proof.
  revert w1 w2. induction es as [|e es IH]; intros w1 w2 Hw; [done|].
  simpl. unfold bind.
  destruct (delete_step_equiv keep e w1 w2 Hw) as [Hres Hw'].
  destruct (delete_step keep tt e w1) as [r1 u1], (delete_step keep tt e w2) as [r2 u2].
  simpl in *. subst r2. destruct r1 as [[]|ex]; [by apply IH|done].
Qed.

(** A run does not depend on the order in which the directory is
    enumerated: same outcome, same log, same files left. *)
Lemma rotate_backups_equiv db now w1 w2 :
  world_equiv w1 w2 →
  (rotate_backups db now w1).1 = (rotate_backups db now w2).1 ∧
  world_equiv (rotate_backups db now w1).2 (rotate_backups db now w2).2.
Proof.
  intros Hw. pose proof Hw as (Hl & Hr & Hg).
  unfold rotate_backups, bind, glob.
  fold (candidates db (listing w1)). fold (candidates db (listing w2)).
  rewrite <- (candidates_order_irrelevant db _ _ Hl).
  set (files := candidates db (listing w1)).
  destruct (decide (files = [])); [done|].
  rewrite !parse_loop. simpl.
  set (v1 := mk_world (listing w1) (refused w1) _).
  set (v2 := mk_world (listing w2) (refused w2) _).
  assert (world_equiv v1 v2) as Hv.
  { repeat split; simpl; [done..|by rewrite Hg]. }
  destruct (decide (entries_of files = [])); [done|].
  destruct (cutoffs now) as [[[dc wc] mc]|]; simpl; [|done].
  by apply delete_loop_equiv.
Qed.

(** ** What the log of a run records *)

Lemma attempted_app a b : attempted (a ++ b) = attempted a ++ attempted b.
Proof. apply omap_app. Qed.

Lemma failed_app a b : failed (a ++ b) = failed a ++ failed b.
Proof. apply omap_app. Qed.

Lemma attempted_skipping l : attempted (Info_skipping <$> l) = [].
Proof. by induction l. Qed.

Lemma failed_skipping l : failed (Info_skipping <$> l) = [].
Proof. by induction l. Qed.

Lemma attempted_removal R ds : attempted (removal_events R ds) = ds.
Proof.
  induction ds as [|f ds IH]; [done|].
  rewrite removal_events_cons, attempted_app, IH.
  by destruct (decide (f ∈ R)).
Qed.

Lemma failed_removal R ds : failed (removal_events R ds) = filter (λ f, f ∈ R) ds.
Proof.
  induction ds as [|f ds IH]; [done|].
  rewrite removal_events_cons, failed_app, IH, filter_cons.
  by destruct (decide (f ∈ R)).
Qed.

(** ** The name of an archive on disk *)

Section archive_name.
Import Text TextFacts CodecFacts.

Lemma rfind_lower c s : -1 <= rfind c s.
Proof.
  induction s as [|a s IH]; simpl; [done|].
  destruct (Z.leb_spec 0 (rfind c s)); [lia|]. destruct (chr_eqb a c); lia.
Qed.

Lemma len_app a b : len (a +:+ b) = len a + len b.
Proof.
  unfold len. induction a as [|x a IH]; [done|].
  change (String x a +:+ b) with (String x (a +:+ b)). simpl String.length. lia.
Qed.

Lemma rfind_app c a b :
  0 <= rfind c b → rfind c (a +:+ b) = len a + rfind c b.
Proof.
  intros Hb. induction a as [|x a IH]; [done|].
  change (String x a +:+ b) with (String x (a +:+ b)). simpl rfind.
  rewrite IH. pose proof (Nat2Z.is_nonneg (String.length a)).
  destruct (Z.leb_spec 0 (len a + rfind c b)); [|unfold len in *; lia].
  unfold len. simpl String.length. lia.
Qed.

Lemma take_str_app a b : take_str (String.length a) (a +:+ b) = a.
Proof.
  induction a as [|x a IH]; [by destruct b|].
  change (String x a +:+ b) with (String x (a +:+ b)). simpl. by rewrite IH.
Qed.

Lemma stem_of_zip s :
  contains "/" s = false → s ≠ "" → PurePath.stem (s +:+ ".zip") = s.
Proof.
  intros Hs Hne. unfold PurePath.stem.
  rewrite name_plain.
  - rewrite rfind_app by done. change (rfind "." ".zip") with 0.
    rewrite len_app. change (len ".zip") with 4.
    assert (0 < len s) as Hlen by (unfold len; destruct s; [done|simpl; lia]).
    destruct (Z.ltb_spec 0 (len s + 0)); [|lia].
    destruct (Z.ltb_spec (len s + 0) (len s + 4 - 1)); [|lia]. simpl.
    unfold len. rewrite Z.add_0_r, Nat2Z.id. apply take_str_app.
  - by rewrite contains_app, Hs.
  - by destruct s.
  - destruct s as [|x s]; [done|]. intros [= _ H]. by destruct s.
Qed.

Lemma get_backup_name_plain c name t :
  Strptime.between "0" "9" c = false → c ≠ "_"%char →
  contains c name = false → contains c (get_backup_name name t) = false.
Proof.
  intros H1 H2 H3. unfold get_backup_name.
  rewrite !contains_app, H3, strftime_plain by done. simpl.
  unfold chr_eqb. by rewrite bool_decide_eq_false_2 by (intros E; by apply H2).
Qed.

Lemma get_backup_name_nonempty name t : get_backup_name name t ≠ "".
Proof.
  unfold get_backup_name. destruct name; [|done].
  change ("" +:+ "_" +:+ Strftime.strftime t) with (String "_" (Strftime.strftime t)).
  done.
Qed.

(** The file [create_zip] writes, [<name>.zip] with [<name>] from
    [get_backup_name], parses back to the instant it was named for,
    whatever dots the database name contains. *)
Lemma archive_name_round_trip name t :
  valid_datetime t → microsecond t = 0 → 1000 <= year t →
  contains "/" name = false →
  parse_backup_timestamp (get_backup_name name t +:+ ".zip") = Some t.
Proof.
  intros Hv Hus Hyear Hname. apply (parse_of_stem _ name t Hv Hus Hyear).
  apply stem_of_zip; [|apply get_backup_name_nonempty].
  by apply get_backup_name_plain.
Qed.

End archive_name.

(** ** The retention properties *)

Ltac demo_clock := repeat split; vm_compute; reflexivity.

(** C1. Entries of the weekly range [now - 28 days <= ts < now - 7 days]
    are grouped by (ISO year, ISO week), entries of the monthly range
    [now - 90 days <= ts < now - 28 days] by (year, month); every occupied
    bucket has exactly one entry in the keep-set, and no entry of the
    bucket has a later timestamp than that one. *)
Theorem C1_one_latest_survivor_per_bucket db now names :
  clock_ok now →
  ∃ dc wc mc p, run_of db now names dc wc mc p ∧
    ∀ e, e ∈ entries_of (candidates db names) →
      (in_range wc dc e.2 = true →
       ∃ s, sole_survivor (kept p)
              (in_bucket wc dc iso_year_week (iso_year_week e.2))
              (entries_of (candidates db names)) s) ∧
      (in_range mc wc e.2 = true →
       ∃ s, sole_survivor (kept p)
              (in_bucket mc wc year_month (year_month e.2))
              (entries_of (candidates db names)) s).
Proof.
  intros Hc.
  destruct (run_of_ok db now names Hc) as (dc & wc & mc & p & Hrun & Hmw & Hwd & _ & Hk & _).
  exists dc, wc, mc, p. split; [done|]. intros e He. rewrite Hk. split; intros Hr.
  - exact (weekly_survivor dc wc mc Hwd _ (entries_fun db names) e He Hr).
  - exact (monthly_survivor dc wc mc Hwd _ (entries_fun db names) e He Hr).
Qed.

Lemma C1_witness :
  clock_ok demo_now ∧
  ∃ dc wc mc p, run_of "shop" demo_now demo_dir dc wc mc p ∧
    ∀ e, e ∈ entries_of (candidates "shop" demo_dir) →
      (in_range wc dc e.2 = true →
       ∃ s, sole_survivor (kept p)
              (in_bucket wc dc iso_year_week (iso_year_week e.2))
              (entries_of (candidates "shop" demo_dir)) s) ∧
      (in_range mc wc e.2 = true →
       ∃ s, sole_survivor (kept p)
              (in_bucket mc wc year_month (year_month e.2))
              (entries_of (candidates "shop" demo_dir)) s).
Proof.
  assert (clock_ok demo_now) as H by demo_clock.
  split; [exact H|]. exact (C1_one_latest_survivor_per_bucket "shop" demo_now demo_dir H).
Defined.

(** C2. Every parsed entry with [ts >= now - 7 days] is in the keep-set
    and not in the delete-set, and its file is still there after the run;
    the cutoff is not after [now], so this covers entries dated after
    [now], and the bound is inclusive, so it covers [ts = now - 7 days]. *)
Theorem C2_daily_entries_kept db now names :
  clock_ok now →
  ∃ dc wc mc p, run_of db now names dc wc mc p ∧
    dt_le dc now = true ∧
    ∀ f ts, f ∈ candidates db names → parse_backup_timestamp f = Some ts →
      (dt_ge ts dc = true ∨ dt_gt ts now = true ∨ ts = dc) →
      f ∈ kept p ∧ (f ∉ deleted p) ∧
      ∀ w, listing w = names → NoDup names → f ∈ listing (rotate_backups db now w).2.
Proof.
  intros Hc.
  destruct (run_of_ok db now names Hc)
    as (dc & wc & mc & p & Hrun & Hmw & Hwd & Hnow & Hk & Hd & _).
  exists dc, wc, mc, p. split; [done|]. split; [done|].
  intros f ts Hf Hp Hts.
  assert (dt_ge ts dc = true) as Hge.
  { destruct Hts as [?|[Hgt| ->]]; [done| |apply dt_le_refl].
    unfold dt_ge, dt_gt in *. eapply dt_le_trans; [exact Hnow|by apply dt_lt_le]. }
  assert ((f, ts) ∈ entries_of (candidates db names)) as He by (by apply entries_of_elem).
  assert (f ∈ kept p) as Hkept.
  { rewrite Hk. by apply (kept_daily dc wc mc _ (f, ts)). }
  assert (f ∉ deleted p) as Hnd.
  { rewrite Hd, delete_for_elem. tauto. }
  repeat split; [done..|].
  intros w <- Hnodup.
  destruct (rotate_backups_run db now w Hc Hnodup) as (p' & Hp' & ->).
  destruct Hrun as (_ & _ & _ & Hrun). rewrite Hrun in Hp'. injection Hp' as <-.
  simpl. apply remaining_elem. split; [|by left].
  by apply candidates_elem in Hf as [? _].
Qed.

Lemma C2_witness :
  clock_ok demo_now ∧
  ∃ dc wc mc p, run_of "shop" demo_now demo_dir dc wc mc p ∧
    dt_le dc demo_now = true ∧
    ∀ f ts, f ∈ candidates "shop" demo_dir → parse_backup_timestamp f = Some ts →
      (dt_ge ts dc = true ∨ dt_gt ts demo_now = true ∨ ts = dc) →
      f ∈ kept p ∧ (f ∉ deleted p) ∧
      ∀ w, listing w = demo_dir → NoDup demo_dir →
           f ∈ listing (rotate_backups "shop" demo_now w).2.
Proof.
  assert (clock_ok demo_now) as H by demo_clock.
  split; [exact H|]. exact (C2_daily_entries_kept "shop" demo_now demo_dir H).
Defined.

(** C3. For any timestamp at most one of the daily, weekly and monthly
    ranges holds; a parsed entry older than [now - 90 days] is in none of
    them, and is in the delete-set. *)
Theorem C3_tiers_disjoint_and_expired_deleted db now names :
  clock_ok now →
  ∃ dc wc mc p, run_of db now names dc wc mc p ∧
    (∀ ts, ¬ (dt_ge ts dc = true ∧ in_range wc dc ts = true) ∧
           ¬ (dt_ge ts dc = true ∧ in_range mc wc ts = true) ∧
           ¬ (in_range wc dc ts = true ∧ in_range mc wc ts = true)) ∧
    ∀ f ts, f ∈ candidates db names → parse_backup_timestamp f = Some ts →
      dt_lt ts mc = true →
      dt_ge ts dc = false ∧ in_range wc dc ts = false ∧ in_range mc wc ts = false ∧
      f ∈ deleted p ∧ (f ∉ kept p).
Proof.
  intros Hc.
  destruct (run_of_ok db now names Hc)
    as (dc & wc & mc & p & Hrun & Hmw & Hwd & Hnow & Hk & Hd & _).
  exists dc, wc, mc, p. split; [done|]. split.
  - intros ts. by apply tiers_disjoint.
  - intros f ts Hf Hp Hold.
    destruct (expired_no_tier dc wc mc Hmw Hwd ts Hold) as (H1 & H2 & H3).
    assert ((f, ts) ∈ entries_of (candidates db names)) as He
      by (by apply entries_of_elem).
    assert (f ∉ kept p) as Hnk.
    { rewrite Hk. apply (kept_expired dc wc mc Hmw Hwd _ (entries_fun db names) (f, ts));
        done. }
    repeat split; [done..| |done].
    rewrite Hd, delete_for_elem. split; [done|by exists ts].
Qed.

Lemma C3_witness :
  clock_ok demo_now ∧
  ∃ dc wc mc p, run_of "shop" demo_now demo_dir dc wc mc p ∧
    (∀ ts, ¬ (dt_ge ts dc = true ∧ in_range wc dc ts = true) ∧
           ¬ (dt_ge ts dc = true ∧ in_range mc wc ts = true) ∧
           ¬ (in_range wc dc ts = true ∧ in_range mc wc ts = true)) ∧
    ∀ f ts, f ∈ candidates "shop" demo_dir → parse_backup_timestamp f = Some ts →
      dt_lt ts mc = true →
      dt_ge ts dc = false ∧ in_range wc dc ts = false ∧ in_range mc wc ts = false ∧
      f ∈ deleted p ∧ (f ∉ kept p).
Proof.
  assert (clock_ok demo_now) as H by demo_clock.
  split; [exact H|].
  exact (C3_tiers_disjoint_and_expired_deleted "shop" demo_now demo_dir H).
Defined.

(** C4. A file of the directory whose name does not parse is neither in
    the keep-set nor in the delete-set, and is still there after the run. *)
Theorem C4_unparsable_left_alone db now names :
  clock_ok now →
  ∃ p, rotation_plan db now names = Some p ∧
    ∀ f, f ∈ names → parse_backup_timestamp f = None →
      (f ∉ kept p) ∧ (f ∉ deleted p) ∧
      ∀ w, listing w = names → NoDup names →
        (rotate_backups db now w).1 = Ok tt ∧
        f ∈ listing (rotate_backups db now w).2 ∧
        (f ∉ attempted (drop (length (log w)) (log (rotate_backups db now w).2))).
Proof.
  intros Hc.
  destruct (run_of_ok db now names Hc)
    as (dc & wc & mc & p & Hrun & Hmw & Hwd & Hnow & Hk & Hd & _).
  exists p. split; [apply Hrun|]. intros f Hf Hp.
  assert (∀ ts, (f, ts) ∉ entries_of (candidates db names)) as Hne.
  { intros ts [_ H]%entries_of_elem. congruence. }
  assert (f ∉ kept p) as Hnk.
  { rewrite Hk. intros [ts H]%kept_is_entry. by apply Hne in H. }
  assert (f ∉ deleted p) as Hnd.
  { rewrite Hd. intros [_ [ts H]]%delete_for_elem. by apply Hne in H. }
  split; [done|]. split; [done|].
  intros w <- Hnodup.
  destruct (rotate_backups_run db now w Hc Hnodup) as (p' & Hp' & ->).
  destruct Hrun as (_ & _ & _ & Hrun). rewrite Hrun in Hp'. injection Hp' as <-.
  simpl. split; [done|]. split; [apply remaining_elem; split; [done|by left]|].
  rewrite drop_app_length, attempted_app, attempted_skipping, attempted_removal. done.
Qed.

Lemma C4_witness :
  clock_ok demo_now ∧
  ∃ p, rotation_plan "shop" demo_now demo_dir = Some p ∧
    ∀ f, f ∈ demo_dir → parse_backup_timestamp f = None →
      (f ∉ kept p) ∧ (f ∉ deleted p) ∧
      ∀ w, listing w = demo_dir → NoDup demo_dir →
        (rotate_backups "shop" demo_now w).1 = Ok tt ∧
        f ∈ listing (rotate_backups "shop" demo_now w).2 ∧
        (f ∉ attempted (drop (length (log w)) (log (rotate_backups "shop" demo_now w).2))).
Proof.
  assert (clock_ok demo_now) as H by demo_clock.
  split; [exact H|]. exact (C4_unparsable_left_alone "shop" demo_now demo_dir H).
Defined.

(** C5, as stated, fails in two ways. A database name may contain a dot
    without containing a path separator, and then the stem of the encoded
    name is cut at that dot and nothing is decoded. And the year of an
    instant before the year 1000 is printed on fewer than four digits, so
    that the decoder reads the year across the month. *)
Lemma C5_round_trip_counterexample :
  (Text.contains "/" "my.db" = false ∧
   valid_datetime (mk_datetime 2025 1 5 2 0 0 0) ∧
   microsecond (mk_datetime 2025 1 5 2 0 0 0) = 0 ∧
   parse_backup_timestamp (get_backup_name "my.db" (mk_datetime 2025 1 5 2 0 0 0))
   = None) ∧
  (Text.contains "/" "shop" = false ∧
   valid_datetime (mk_datetime 999 1 2 3 4 5 0) ∧
   microsecond (mk_datetime 999 1 2 3 4 5 0) = 0 ∧
   parse_backup_timestamp (get_backup_name "shop" (mk_datetime 999 1 2 3 4 5 0))
   = Some (mk_datetime 9990 10 2 3 4 5 0)).
Proof. repeat split; vm_compute; reflexivity. Qed.

(** C5, amended. For a database name with neither the path separator nor
    a dot, and a valid instant with whole-second precision and a year of
    four digits, decoding the encoded name returns the instant. *)
Theorem C5_round_trip name t :
  Text.contains "/" name = false → Text.contains "." name = false →
  valid_datetime t → microsecond t = 0 → 1000 <= year t →
  parse_backup_timestamp (get_backup_name name t) = Some t.
Proof.
  intros Hs Hd Hv Hus Hyear. apply (parse_of_stem _ name t Hv Hus Hyear).
  apply TextFacts.stem_plain.
  - by apply get_backup_name_plain.
  - by apply get_backup_name_plain.
  - apply get_backup_name_nonempty.
Qed.

Lemma C5_witness :
  Text.contains "/" "shop" = false ∧ Text.contains "." "shop" = false ∧
  valid_datetime (mk_datetime 2025 4 9 2 0 0 0) ∧
  microsecond (mk_datetime 2025 4 9 2 0 0 0) = 0 ∧
  1000 <= year (mk_datetime 2025 4 9 2 0 0 0) ∧
  parse_backup_timestamp (get_backup_name "shop" (mk_datetime 2025 4 9 2 0 0 0))
  = Some (mk_datetime 2025 4 9 2 0 0 0).
Proof.
  assert (valid_datetime (mk_datetime 2025 4 9 2 0 0 0)) as Hv
    by (split; reflexivity).
  assert (1000 <= year (mk_datetime 2025 4 9 2 0 0 0)) as Hy by (simpl; lia).
  split; [reflexivity|]. split; [reflexivity|]. split; [exact Hv|].
  split; [reflexivity|]. split; [exact Hy|].
  exact (C5_round_trip "shop" (mk_datetime 2025 4 9 2 0 0 0)
           eq_refl eq_refl Hv eq_refl Hy).
Defined.

(** C6 does not hold of the code: the pattern [shop_*.zip] also matches
    the archives of a database named [shop_eu], and a run for [shop]
    removes one that is older than 90 days. *)
Theorem C6_prefix_collision_deletes_other_database :
  get_backup_name "shop_eu" (mk_datetime 2025 1 1 2 0 0 0) +:+ ".zip"
    = "shop_eu_20250101_020000.zip" ∧
  "shop_eu" ≠ "shop" ∧
  rotation_plan "shop" demo_now
    ["shop_20250409_020000.zip"; "shop_eu_20250101_020000.zip"]
    = Some (mk_plan {[ "shop_20250409_020000.zip" ]} ["shop_eu_20250101_020000.zip"] []) ∧
  rotate_backups "shop" demo_now
    (mk_world ["shop_20250409_020000.zip"; "shop_eu_20250101_020000.zip"] ∅ [])
    = (Ok tt, mk_world ["shop_20250409_020000.zip"] ∅
                       [Info_deleting "shop_eu_20250101_020000.zip"]).
Proof. repeat split; [done|vm_compute; reflexivity..]. Qed.

(** C7, as stated, fails: a file whose removal is refused is still in the
    directory after the first run, and the second run puts it in its
    delete-set again. *)
Lemma C7_refused_removal_counterexample :
  ¬ (∀ db now w w1 p2,
       clock_ok now → NoDup (listing w) →
       rotate_backups db now w = (Ok tt, w1) →
       rotation_plan db now (listing w1) = Some p2 →
       deleted p2 = []).
Proof.
  intros H.
  specialize (H "shop" demo_now
    (mk_world ["shop_20250101_020000.zip"] {[ "shop_20250101_020000.zip" ]} [])
    (mk_world ["shop_20250101_020000.zip"] {[ "shop_20250101_020000.zip" ]}
       [Info_deleting "shop_20250101_020000.zip";
        Warning_cannot_delete "shop_20250101_020000.zip" OSError])
    (mk_plan ∅ ["shop_20250101_020000.zip"] [])).
  simpl in H. discriminate H.
  - demo_clock.
  - apply NoDup_singleton.
  - vm_compute. reflexivity.
  - vm_compute. reflexivity.
Qed.

(** C7, amended. When every removal of the first run succeeds, a second
    run on the resulting directory with the same [now] has an empty
    delete-set and the same keep-set. *)
Theorem C7_idempotent_when_removals_succeed db now w p1 :
  clock_ok now → NoDup (listing w) →
  rotation_plan db now (listing w) = Some p1 →
  (∀ f, f ∈ deleted p1 → f ∉ refused w) →
  ∃ w1 p2,
    rotate_backups db now w = (Ok tt, w1) ∧
    rotation_plan db now (listing w1) = Some p2 ∧
    deleted p2 = [] ∧ kept p2 = kept p1.
Proof.
  intros Hc Hnodup Hp1 Hok.
  destruct (rotate_backups_run db now w Hc Hnodup) as (p & Hp & Hrun).
  rewrite Hp1 in Hp. injection Hp as <-.
  destruct (run_of_ok db now (listing w) Hc)
    as (dc & wc & mc & p & Hro & _ & _ & _ & Hk & Hd & _).
  pose proof Hro as (_ & _ & _ & Hp). rewrite Hp1 in Hp. injection Hp as <-.
  destruct (second_run db now (listing w) (refused w) dc wc mc p1 Hro Hk Hd)
    as (p2 & Hp2 & Hk2 & Hd2).
  eexists _, p2. split; [exact Hrun|]. simpl. split; [done|]. split; [|done].
  destruct (deleted p2) as [|f ds] eqn:E; [done|].
  destruct (Hd2 f) as [[Hin HR] _]; [by left|]. by apply Hok in Hin.
Qed.

Lemma C7_witness :
  clock_ok demo_now ∧ NoDup demo_dir ∧
  ∃ w1 p2,
    rotate_backups "shop" demo_now (mk_world demo_dir ∅ []) = (Ok tt, w1) ∧
    rotation_plan "shop" demo_now (listing w1) = Some p2 ∧
    deleted p2 = [] ∧ kept p2 = kept demo_plan_value.
Proof.
  assert (clock_ok demo_now) as H by demo_clock.
  assert (NoDup demo_dir) as Hn by (apply (bool_decide_unpack _); vm_compute; exact I).
  split; [exact H|]. split; [exact Hn|].
  refine (C7_idempotent_when_removals_succeed "shop" demo_now
            (mk_world demo_dir ∅ []) demo_plan_value H Hn _ _).
  - vm_compute. reflexivity.
  - intros f _. apply not_elem_of_empty.
Defined.

(** C8. The plan of a run depends on the set of file names and on [now]
    only: two enumerations of the same names give the same keep-set,
    delete-set and skipped names, and the runs have the same outcome, the
    same log and leave the same files. *)
Theorem C8_order_of_enumeration_irrelevant db now w1 w2 :
  listing w1 ≡ₚ listing w2 → refused w1 = refused w2 → log w1 = log w2 →
  rotation_plan db now (listing w1) = rotation_plan db now (listing w2) ∧
  (rotate_backups db now w1).1 = (rotate_backups db now w2).1 ∧
  log (rotate_backups db now w1).2 = log (rotate_backups db now w2).2 ∧
  listing (rotate_backups db now w1).2 ≡ₚ listing (rotate_backups db now w2).2.
Proof.
  intros Hl Hr Hg. split.
  - unfold rotation_plan. by rewrite (candidates_order_irrelevant db _ _ Hl).
  - destruct (rotate_backups_equiv db now w1 w2) as (H1 & H2 & _ & H3); done.
Qed.

Lemma C8_witness :
  demo_dir ≡ₚ reverse demo_dir ∧
  rotation_plan "shop" demo_now demo_dir = rotation_plan "shop" demo_now (reverse demo_dir) ∧
  (rotate_backups "shop" demo_now (mk_world demo_dir ∅ [])).1
    = (rotate_backups "shop" demo_now (mk_world (reverse demo_dir) ∅ [])).1 ∧
  log (rotate_backups "shop" demo_now (mk_world demo_dir ∅ [])).2
    = log (rotate_backups "shop" demo_now (mk_world (reverse demo_dir) ∅ [])).2 ∧
  listing (rotate_backups "shop" demo_now (mk_world demo_dir ∅ [])).2
    ≡ₚ listing (rotate_backups "shop" demo_now (mk_world (reverse demo_dir) ∅ [])).2.
Proof.
  assert (demo_dir ≡ₚ reverse demo_dir) as H by (symmetry; apply reverse_Permutation).
  split; [exact H|].
  exact (C8_order_of_enumeration_irrelevant "shop" demo_now
           (mk_world demo_dir ∅ []) (mk_world (reverse demo_dir) ∅ []) H eq_refl eq_refl).
Defined.

(** C9. Whatever removals the file system refuses, a run with a usable
    clock returns normally; it attempts the removal of every path of the
    delete-set, in order; it logs a warning for exactly the refused ones;
    and exactly the paths whose removal succeeded are gone. *)
Theorem C9_removal_failures_isolated db now w :
  clock_ok now → NoDup (listing w) →
  ∃ p w' evs,
    rotation_plan db now (listing w) = Some p ∧
    rotate_backups db now w = (Ok tt, w') ∧
    log w' = log w ++ evs ∧
    attempted evs = deleted p ∧
    failed evs = filter (λ f, f ∈ refused w) (deleted p) ∧
    ∀ g, g ∈ listing w' ↔ g ∈ listing w ∧ (g ∉ deleted p ∨ g ∈ refused w).
Proof.
  intros Hc Hnodup.
  destruct (rotate_backups_run db now w Hc Hnodup) as (p & Hp & Hrun).
  eexists p, _, _. split; [done|]. split; [exact Hrun|]. simpl.
  split; [reflexivity|]. split; [|split].
  - by rewrite attempted_app, attempted_skipping, attempted_removal.
  - by rewrite failed_app, failed_skipping, failed_removal.
  - intros g. apply remaining_elem.
Qed.

Lemma C9_witness :
  clock_ok demo_now ∧ NoDup demo_dir ∧
  ∃ p w' evs,
    rotation_plan "shop" demo_now demo_dir = Some p ∧
    rotate_backups "shop" demo_now
      (mk_world demo_dir {[ "shop_20250301_020000.zip" ]} []) = (Ok tt, w') ∧
    log w' = [] ++ evs ∧
    attempted evs = deleted p ∧
    failed evs = filter (λ f, f ∈ ({[ "shop_20250301_020000.zip" ]} : gset string)) (deleted p) ∧
    ∀ g, g ∈ listing w' ↔
         g ∈ demo_dir ∧ (g ∉ deleted p ∨ g ∈ ({[ "shop_20250301_020000.zip" ]} : gset string)).
Proof.
  assert (clock_ok demo_now) as H by demo_clock.
  assert (NoDup demo_dir) as Hn by (apply (bool_decide_unpack _); vm_compute; exact I).
  split; [exact H|]. split; [exact Hn|].
  exact (C9_removal_failures_isolated "shop" demo_now
           (mk_world demo_dir {[ "shop_20250301_020000.zip" ]} []) H Hn).
Defined.

(** C10. In a weekly or monthly bucket the survivor has the least path
    among the entries of the bucket that share its timestamp, which is
    the latest of the bucket. *)
Theorem C10_tie_goes_to_least_path db now names :
  clock_ok now →
  ∃ dc wc mc p, run_of db now names dc wc mc p ∧
    ∀ e, e ∈ entries_of (candidates db names) →
      (in_range wc dc e.2 = true →
       ∃ s, sole_survivor (kept p)
              (in_bucket wc dc iso_year_week (iso_year_week e.2))
              (entries_of (candidates db names)) s ∧
            ∀ x, x ∈ entries_of (candidates db names) →
                 in_bucket wc dc iso_year_week (iso_year_week e.2) x = true →
                 x.2 = s.2 → String.le s.1 x.1) ∧
      (in_range mc wc e.2 = true →
       ∃ s, sole_survivor (kept p)
              (in_bucket mc wc year_month (year_month e.2))
              (entries_of (candidates db names)) s ∧
            ∀ x, x ∈ entries_of (candidates db names) →
                 in_bucket mc wc year_month (year_month e.2) x = true →
                 x.2 = s.2 → String.le s.1 x.1).
Proof.
  intros Hc.
  destruct (run_of_ok db now names Hc) as (dc & wc & mc & p & Hrun & Hmw & Hwd & _ & Hk & _).
  exists dc, wc, mc, p. split; [done|]. intros e He. rewrite Hk.
  pose proof (entries_fun db names) as Hfun.
  pose proof (entries_sorted db names) as Hsorted.
  split; intros Hr.
  - destruct (weekly_survivor dc wc mc Hwd _ Hfun e He Hr) as [s Hs].
    exists s. split; [done|]. intros x Hx Hb Heq.
    destruct Hs as (Hsin & Hsb & Hsk & _).
    unfold in_bucket in Hsb. apply andb_prop in Hsb as [Hsr Hskey].
    apply bool_decide_eq_true in Hskey.
    apply (kept_weekly dc wc mc Hwd _ Hfun s Hsin Hsr) in Hsk.
    rewrite Hskey in Hsk. by eapply first_latest_least_path.
  - destruct (monthly_survivor dc wc mc Hwd _ Hfun e He Hr) as [s Hs].
    exists s. split; [done|]. intros x Hx Hb Heq.
    destruct Hs as (Hsin & Hsb & Hsk & _).
    unfold in_bucket in Hsb. apply andb_prop in Hsb as [Hsr Hskey].
    apply bool_decide_eq_true in Hskey.
    apply (kept_monthly dc wc mc Hwd _ Hfun s Hsin Hsr) in Hsk.
    rewrite Hskey in Hsk. by eapply first_latest_least_path.
Qed.

Lemma C10_witness :
  clock_ok demo_now ∧
  ∃ dc wc mc p, run_of "shop" demo_now tie_dir dc wc mc p ∧
    ∀ e, e ∈ entries_of (candidates "shop" tie_dir) →
      (in_range wc dc e.2 = true →
       ∃ s, sole_survivor (kept p)
              (in_bucket wc dc iso_year_week (iso_year_week e.2))
              (entries_of (candidates "shop" tie_dir)) s ∧
            ∀ x, x ∈ entries_of (candidates "shop" tie_dir) →
                 in_bucket wc dc iso_year_week (iso_year_week e.2) x = true →
                 x.2 = s.2 → String.le s.1 x.1) ∧
      (in_range mc wc e.2 = true →
       ∃ s, sole_survivor (kept p)
              (in_bucket mc wc year_month (year_month e.2))
              (entries_of (candidates "shop" tie_dir)) s ∧
            ∀ x, x ∈ entries_of (candidates "shop" tie_dir) →
                 in_bucket mc wc year_month (year_month e.2) x = true →
                 x.2 = s.2 → String.le s.1 x.1).
Proof.
  assert (clock_ok demo_now) as H by demo_clock.
  split; [exact H|]. exact (C10_tie_goes_to_least_path "shop" demo_now tie_dir H).
Defined.

(** ** Patterns of plain database names *)

Section glob.
Import Text TextFacts.

Lemma fnmatch_literal_char c p s :
  c ≠ "*"%char → c ≠ "?"%char →
  fnmatch (String c p) s =
  match s with "" => false | String a r => chr_eqb c a && fnmatch p r end.
Proof.
  intros H1 H2.
  destruct c as [[] [] [] [] [] [] [] []]; try reflexivity; congruence.
Qed.

Lemma fnmatch_star p s :
  fnmatch (String "*" p) s = true ↔ ∃ a b, s = a +:+ b ∧ fnmatch p b = true.
Proof.
  induction s as [|x s IH].
  - simpl. rewrite orb_false_r. split.
    + intros H. by exists "", "".
    + intros (a & b & Hs & Hb). destruct a; [|done].
      change ("" +:+ b) with b in Hs. by subst.
  - change (fnmatch (String "*" p) (String x s))
      with (fnmatch p (String x s) || fnmatch (String "*" p) s).
    rewrite orb_true_iff, IH. split.
    + intros [H|(a & b & -> & Hb)].
      * by exists "", (String x s).
      * by exists (String x a), b.
    + intros (a & b & Hs & Hb). destruct a as [|y a].
      * change ("" +:+ b) with b in Hs. subst. by left.
      * change (String y a +:+ b) with (String y (a +:+ b)) in Hs.
        injection Hs as -> ->. right. by exists a, b.
Qed.

Lemma fnmatch_nil s : fnmatch "" s = true ↔ s = "".
Proof. simpl. apply bool_decide_eq_true. Qed.



Lemma fnmatch_tail_zip r :
  fnmatch "_*.zip" r = true ↔ ∃ mid, r = "_" +:+ mid +:+ ".zip".
Proof.
  destruct r as [|a r]; [split; [done|by intros (mid & ?)]|].
  rewrite fnmatch_literal_char by done.
  rewrite andb_true_iff. unfold chr_eqb. rewrite bool_decide_eq_true.
  rewrite fnmatch_star. split.
  - intros [<- (mid & b & -> & Hb)]. exists mid.
    assert (b = ".zip") as ->; [|done].
    destruct b as [|b1 b]; [done|]. rewrite fnmatch_literal_char in Hb by done.
    apply andb_prop in Hb as [E1 Hb]. apply bool_decide_eq_true in E1 as <-.
    destruct b as [|b2 b]; [done|]. rewrite fnmatch_literal_char in Hb by done.
    apply andb_prop in Hb as [E2 Hb]. apply bool_decide_eq_true in E2 as <-.
    destruct b as [|b3 b]; [done|]. rewrite fnmatch_literal_char in Hb by done.
    apply andb_prop in Hb as [E3 Hb]. apply bool_decide_eq_true in E3 as <-.
    destruct b as [|b4 b]; [done|]. rewrite fnmatch_literal_char in Hb by done.
    apply andb_prop in Hb as [E4 Hb]. apply bool_decide_eq_true in E4 as <-.
    apply fnmatch_nil in Hb as ->. done.
  - intros (mid & Hr).
    change ("_" +:+ mid +:+ ".zip") with (String "_" (mid +:+ ".zip")) in Hr.
    injection Hr as -> ->. split; [done|]. by exists mid, ".zip".
Qed.


(** Whatever the database name, the pattern matches the names made of
    the database name itself, ["_"], anything, and [".zip"]. *)
Lemma fnmatch_own_archives db mid :
  fnmatch (db +:+ "_*.zip") (db +:+ "_" +:+ mid +:+ ".zip") = true.
Proof.
  induction db as [|c db IH].
  - apply fnmatch_tail_zip. by exists mid.
  - change (String c db +:+ "_*.zip") with (String c (db +:+ "_*.zip")).
    change (String c db +:+ "_" +:+ mid +:+ ".zip")
      with (String c (db +:+ "_" +:+ mid +:+ ".zip")).
    destruct (decide (c = "*"%char)) as [->|H1].
    + apply fnmatch_star. by exists "*", (db +:+ "_" +:+ mid +:+ ".zip").
    + destruct (decide (c = "?"%char)) as [->|H2]; [exact IH|].
      rewrite fnmatch_literal_char by done. unfold chr_eqb.
      by rewrite bool_decide_eq_true_2, IH.
Qed.

End glob.

(** ** Further facts about a run *)

Lemma skipped_of_elem files f :
  f ∈ skipped_of files ↔ f ∈ files ∧ parse_backup_timestamp f = None.
Proof. unfold skipped_of. rewrite list_elem_of_filter. tauto. Qed.

Lemma skipped_of_all files :
  (∀ f, f ∈ files → parse_backup_timestamp f = None) → skipped_of files = files.
Proof. intros H. by apply filter_all. Qed.

Lemma entries_of_none files :
  (∀ f, f ∈ files → parse_backup_timestamp f = None) → entries_of files = [].
Proof.
  intros H. destruct (entries_of files) as [|[f ts] es] eqn:E; [done|].
  assert ((f, ts) ∈ entries_of files) as [Hf Hp]%entries_of_elem
    by (rewrite E; by left).
  rewrite (H f Hf) in Hp. done.
Qed.

(** The ranges cover every timestamp from the monthly cutoff on. *)
Lemma tiers_cover dc wc mc ts :
  dt_le mc ts = true →
  dt_ge ts dc = true ∨ in_range wc dc ts = true ∨ in_range mc wc ts = true.
Proof.
  intros Hm. unfold dt_ge, in_range.
  destruct (dt_le_total dc ts) as [H|H]; [by left|right].
  destruct (dt_le_total wc ts) as [H'|H']; [left|right].
  - by rewrite H', H.
  - by rewrite Hm, H'.
Qed.

(** An entry of the daily range is kept, is not in the delete-set and is
    still in the directory after the run. *)
Lemma daily_entry_survives db now w dc wc mc p f ts :
  clock_ok now → NoDup (listing w) →
  run_of db now (listing w) dc wc mc p →
  f ∈ candidates db (listing w) → parse_backup_timestamp f = Some ts →
  dt_ge ts dc = true →
  f ∈ kept p ∧ (f ∉ deleted p) ∧ f ∈ listing (rotate_backups db now w).2.
Proof.
  intros Hc Hnodup Hrun Hf Hp Hge.
  destruct (run_of_ok db now (listing w) Hc)
    as (dc' & wc' & mc' & p' & Hrun' & _ & _ & _ & Hk & Hd & _).
  destruct Hrun as (E1 & E2 & E3 & E4), Hrun' as (E1' & E2' & E3' & E4').
  assert (dc' = dc) as -> by congruence. assert (wc' = wc) as -> by congruence.
  assert (mc' = mc) as -> by congruence. assert (p' = p) as -> by congruence.
  assert ((f, ts) ∈ entries_of (candidates db (listing w))) as He
    by (by apply entries_of_elem).
  assert (f ∈ kept p) as Hkept.
  { rewrite Hk. by apply (kept_daily dc wc mc _ (f, ts)). }
  assert (f ∉ deleted p) as Hnd.
  { rewrite Hd, delete_for_elem. tauto. }
  split; [done|]. split; [done|].
  destruct (rotate_backups_run db now w Hc Hnodup) as (p' & Hp' & ->).
  rewrite E4 in Hp'. injection Hp' as <-.
  simpl. apply remaining_elem. split; [|by left].
  by apply candidates_elem in Hf as [? _].
Qed.

(** The run when no candidate parses, whatever the clock. *)
Lemma rotate_backups_nothing_parsed db now w :
  (∀ f, f ∈ candidates db (listing w) → parse_backup_timestamp f = None) →
  rotate_backups db now w =
  (Ok tt, mk_world (listing w) (refused w)
                   (log w ++ (Info_skipping <$> candidates db (listing w)))).
Proof.
  intros Hnone. unfold rotate_backups, bind, glob.
  fold (candidates db (listing w)).
  set (files := candidates db (listing w)) in *.
  destruct (decide (files = [])) as [E|E].
  - rewrite E. unfold ret. destruct w. simpl. by rewrite app_nil_r.
  - rewrite parse_loop. simpl. rewrite (entries_of_none files Hnone).
    rewrite decide_True by done. unfold ret.
    by rewrite (skipped_of_all files Hnone).
Qed.

(** The run when some candidate parses and the cutoffs do not exist. *)
Lemma rotate_backups_overflow db now w :
  cutoffs now = None →
  entries_of (candidates db (listing w)) ≠ [] →
  rotate_backups db now w =
  (Raise OverflowError,
   mk_world (listing w) (refused w)
            (log w ++ (Info_skipping <$> skipped_of (candidates db (listing w))))).
Proof.
  intros Hcut Hne. unfold rotate_backups, bind, glob.
  fold (candidates db (listing w)).
  set (files := candidates db (listing w)) in *.
  destruct (decide (files = [])) as [E|E].
  - rewrite E in Hne. done.
  - rewrite parse_loop. simpl. rewrite decide_False by done.
    by rewrite Hcut.
Qed.

Lemma cutoffs_early now :
  valid_datetime now → toordinal now <= 90 → cutoffs now = None.
Proof.
  intros Hv Hord. unfold cutoffs, dt_sub.
  change (timedelta 90 0) with 90.
  assert (dt_add now (Z.opp 90) = None) as E.
  { rewrite dt_add_eq by done.
    destruct (Z.ltb_spec 0 (toordinal now + Z.opp 90)); [lia|done]. }
  rewrite E. destruct (dt_add now (- timedelta 7 0)); [|done].
  by destruct (dt_add now (- timedelta 0 4)).
Qed.

(** ** Further facts about the codec *)

Lemma whole_second_valid t : valid_datetime t → valid_datetime (whole_second t).
Proof.
  intros [Hd Ht]. split; [done|]. simpl.
  unfold check_time_fields in *. repeat (apply andb_prop in Ht as [Ht ?]).
  repeat (apply andb_true_intro; split); try done.
Qed.

Lemma get_backup_name_whole_second db t :
  get_backup_name db (whole_second t) = get_backup_name db t.
Proof. reflexivity. Qed.


Lemma parse_last_two f l D T :
  Text.split "_" (PurePath.stem f) = l ++ [D; T] →
  parse_backup_timestamp f = Strptime.strptime (D +:+ "_" +:+ T).
Proof.
  intros Hs. unfold parse_backup_timestamp. rewrite Hs, length_app. simpl length.
  destruct (Nat.ltb_spec (length l + 2) 2); [lia|].
  change 2%nat with (length [D; T]) at 1. by rewrite TextFacts.last_n_app.
Qed.

(** ** More properties of the retention engine *)

Ltac demo_nodup := apply (bool_decide_unpack _); vm_compute; exact I.

(** X1. Every candidate of a run is in exactly one of the keep-set, the
    delete-set and the skipped names, these hold nothing but candidates,
    and every kept file is still in the directory after the run. *)
Theorem X1_candidates_partitioned db now w :
  clock_ok now → NoDup (listing w) →
  ∃ p, rotation_plan db now (listing w) = Some p ∧
    (∀ f, f ∈ candidates db (listing w) →
       (f ∈ kept p ∧ (f ∉ deleted p) ∧ (f ∉ skipped p)) ∨
       ((f ∉ kept p) ∧ f ∈ deleted p ∧ (f ∉ skipped p)) ∨
       ((f ∉ kept p) ∧ (f ∉ deleted p) ∧ f ∈ skipped p)) ∧
    (∀ f, f ∈ kept p ∨ f ∈ deleted p ∨ f ∈ skipped p →
          f ∈ candidates db (listing w)) ∧
    (∀ f, f ∈ kept p → f ∈ listing (rotate_backups db now w).2).
Proof.
  intros Hc Hnodup.
  destruct (run_of_ok db now (listing w) Hc)
    as (dc & wc & mc & p & Hrun & _ & _ & _ & Hk & Hd & Hs).
  exists p. split; [apply Hrun|].
  assert (∀ f, f ∈ kept p → ∃ ts, (f, ts) ∈ entries_of (candidates db (listing w)))
    as Hkept.
  { intros f. rewrite Hk. apply kept_is_entry. }
  split; [|split].
  - intros f Hf. destruct (parse_backup_timestamp f) as [ts|] eqn:Ep.
    + assert ((f, ts) ∈ entries_of (candidates db (listing w))) as He
        by (by apply entries_of_elem).
      assert (f ∉ skipped p) as Hns.
      { rewrite Hs. intros [_ H]%skipped_of_elem. congruence. }
      destruct (decide (f ∈ kept p)) as [Hin|Hnin].
      * left. split; [done|]. split; [|done].
        rewrite Hd. intros [H _]%delete_for_elem. done.
      * right; left. split; [done|]. split; [|done].
        rewrite Hd. apply delete_for_elem. split; [done|by exists ts].
    + right; right. split; [|split].
      * intros [ts [_ H]%entries_of_elem]%Hkept. congruence.
      * rewrite Hd. intros [_ [ts [_ H]%entries_of_elem]]%delete_for_elem.
        congruence.
      * rewrite Hs. by apply skipped_of_elem.
  - intros f [H|[H|H]].
    + apply Hkept in H as [ts [H _]%entries_of_elem]. done.
    + rewrite Hd in H. apply delete_for_elem in H as [_ [ts [H _]%entries_of_elem]].
      done.
    + rewrite Hs in H. by apply skipped_of_elem in H as [H _].
  - intros f Hf.
    destruct (rotate_backups_run db now w Hc Hnodup) as (p' & Hp' & ->).
    destruct Hrun as (_ & _ & _ & Hrun). rewrite Hrun in Hp'. injection Hp' as <-.
    simpl. apply remaining_elem. split.
    + apply Hkept in Hf as [ts [H _]%entries_of_elem].
      by apply candidates_elem in H as [? _].
    + left. rewrite Hd. intros [H _]%delete_for_elem. done.
Qed.

Lemma X1_witness :
  clock_ok demo_now ∧ NoDup demo_dir ∧
  ∃ p, rotation_plan "shop" demo_now demo_dir = Some p ∧
    (∀ f, f ∈ candidates "shop" demo_dir →
       (f ∈ kept p ∧ (f ∉ deleted p) ∧ (f ∉ skipped p)) ∨
       ((f ∉ kept p) ∧ f ∈ deleted p ∧ (f ∉ skipped p)) ∨
       ((f ∉ kept p) ∧ (f ∉ deleted p) ∧ f ∈ skipped p)) ∧
    (∀ f, f ∈ kept p ∨ f ∈ deleted p ∨ f ∈ skipped p →
          f ∈ candidates "shop" demo_dir) ∧
    (∀ f, f ∈ kept p →
          f ∈ listing (rotate_backups "shop" demo_now (mk_world demo_dir ∅ [])).2).
Proof.
  assert (clock_ok demo_now) as H by demo_clock.
  assert (NoDup demo_dir) as Hn by demo_nodup.
  split; [exact H|]. split; [exact Hn|].
  exact (X1_candidates_partitioned "shop" demo_now (mk_world demo_dir ∅ []) H Hn).
Defined.



(** X3. When no candidate parses (an empty directory, no file of the
    database, or only names without a timestamp), the run returns
    normally whatever the clock reads, removes nothing, and logs one line
    per candidate, in sorted order. *)
Theorem X3_nothing_parsed_is_a_noop db now w :
  (∀ f, f ∈ listing w → fnmatch (db +:+ "_*.zip") f = true →
        parse_backup_timestamp f = None) →
  rotate_backups db now w =
  (Ok tt, mk_world (listing w) (refused w)
                   (log w ++ (Info_skipping <$> candidates db (listing w)))).
Proof.
  intros H. apply rotate_backups_nothing_parsed.
  intros f [Hf Hm]%candidates_elem. by apply H.
Qed.

Lemma X3_witness :
  (∀ f, f ∈ ["shop_backup_final.zip"; "notes.txt"] →
        fnmatch ("shop" +:+ "_*.zip") f = true →
        parse_backup_timestamp f = None) ∧
  rotate_backups "shop" (mk_datetime 1 1 1 0 0 0 0)
    (mk_world ["shop_backup_final.zip"; "notes.txt"] ∅ []) =
  (Ok tt, mk_world ["shop_backup_final.zip"; "notes.txt"] ∅
            ([] ++ (Info_skipping <$>
                      candidates "shop" ["shop_backup_final.zip"; "notes.txt"]))).
Proof.
  assert (∀ f, f ∈ ["shop_backup_final.zip"; "notes.txt"] →
               fnmatch ("shop" +:+ "_*.zip") f = true →
               parse_backup_timestamp f = None) as H.
  { intros f Hf. apply elem_of_cons in Hf as [->|Hf]; [intros _; vm_compute; reflexivity|].
    apply elem_of_cons in Hf as [->|Hf]; [vm_compute; discriminate|].
    by apply elem_of_nil in Hf. }
  split; [exact H|].
  exact (X3_nothing_parsed_is_a_noop "shop" (mk_datetime 1 1 1 0 0 0 0)
           (mk_world ["shop_backup_final.zip"; "notes.txt"] ∅ []) H).
Defined.

(** X4. When the clock reads a date within 90 days of 0001-01-01 and some
    candidate parses, the run raises [OverflowError] out of the date
    arithmetic; by then it has logged the skipped names and it has
    removed nothing. *)
Theorem X4_unusable_clock_raises_before_removing db now w f ts :
  valid_datetime now → toordinal now <= 90 →
  f ∈ candidates db (listing w) → parse_backup_timestamp f = Some ts →
  rotate_backups db now w =
  (Raise OverflowError,
   mk_world (listing w) (refused w)
            (log w ++ (Info_skipping <$> skipped_of (candidates db (listing w))))).
Proof.
  intros Hv Hord Hf Hp. apply rotate_backups_overflow.
  - by apply cutoffs_early.
  - intros E.
    assert ((f, ts) ∈ entries_of (candidates db (listing w))) as He
      by (by apply entries_of_elem).
    rewrite E in He. by apply elem_of_nil in He.
Qed.

Lemma X4_witness :
  valid_datetime (mk_datetime 1 2 1 0 0 0 0) ∧
  toordinal (mk_datetime 1 2 1 0 0 0 0) <= 90 ∧
  "shop_20250409_020000.zip" ∈ candidates "shop" demo_dir ∧
  parse_backup_timestamp "shop_20250409_020000.zip"
    = Some (mk_datetime 2025 4 9 2 0 0 0) ∧
  rotate_backups "shop" (mk_datetime 1 2 1 0 0 0 0) (mk_world demo_dir ∅ []) =
  (Raise OverflowError,
   mk_world demo_dir ∅
            ([] ++ (Info_skipping <$> skipped_of (candidates "shop" demo_dir)))).
Proof.
  assert (valid_datetime (mk_datetime 1 2 1 0 0 0 0)) as Hv by (split; reflexivity).
  assert (toordinal (mk_datetime 1 2 1 0 0 0 0) <= 90) as Ho by (vm_compute; discriminate).
  assert ("shop_20250409_020000.zip" ∈ candidates "shop" demo_dir) as Hf
    by (apply (bool_decide_unpack _); vm_compute; exact I).
  assert (parse_backup_timestamp "shop_20250409_020000.zip"
          = Some (mk_datetime 2025 4 9 2 0 0 0)) as Hp by (vm_compute; reflexivity).
  split; [exact Hv|]. split; [exact Ho|]. split; [exact Hf|]. split; [exact Hp|].
  exact (X4_unusable_clock_raises_before_removing "shop" (mk_datetime 1 2 1 0 0 0 0)
           (mk_world demo_dir ∅ []) _ _ Hv Ho Hf Hp).
Defined.

(** X5. If the latest timestamp among the parsed entries is not older
    than [now - 90 days], an entry with that timestamp is kept: a run
    never removes all of the most recent backups. *)
Theorem X5_latest_recent_entry_kept db now names :
  clock_ok now →
  ∃ dc wc mc p, run_of db now names dc wc mc p ∧
    ∀ e, e ∈ entries_of (candidates db names) →
      dt_le mc e.2 = true →
      (∀ x, x ∈ entries_of (candidates db names) → dt_le x.2 e.2 = true) →
      ∃ s, s ∈ entries_of (candidates db names) ∧ s.2 = e.2 ∧
           s.1 ∈ kept p ∧ (s.1 ∉ deleted p).
Proof.
  intros Hc.
  destruct (run_of_ok db now names Hc)
    as (dc & wc & mc & p & Hrun & Hmw & Hwd & _ & Hk & Hd & _).
  exists dc, wc, mc, p. split; [done|]. intros e He Hm Hmax.
  pose proof (entries_fun db names) as Hfun.
  assert (∃ s, s ∈ entries_of (candidates db names) ∧ s.2 = e.2 ∧ s.1 ∈ kept p)
    as (s & Hs & Heq & Hkept).
  { rewrite Hk. destruct (tiers_cover dc wc mc e.2 Hm) as [H|[H|H]].
    - exists e. split; [done|]. split; [done|]. by apply kept_daily.
    - destruct (weekly_survivor dc wc mc Hwd _ Hfun e He H)
        as (s & Hs & _ & Hsk & _ & Hlate).
      exists s. split; [done|]. split; [|done].
      apply dt_le_antisym; [by apply Hmax|].
      apply Hlate; [done|by apply in_bucket_own].
    - destruct (monthly_survivor dc wc mc Hwd _ Hfun e He H)
        as (s & Hs & _ & Hsk & _ & Hlate).
      exists s. split; [done|]. split; [|done].
      apply dt_le_antisym; [by apply Hmax|].
      apply Hlate; [done|by apply in_bucket_own]. }
  exists s. repeat split; try done.
  rewrite Hd. intros [H _]%delete_for_elem. done.
Qed.

Lemma X5_witness :
  clock_ok demo_now ∧
  ∃ dc wc mc p, run_of "shop" demo_now demo_dir dc wc mc p ∧
    ∀ e, e ∈ entries_of (candidates "shop" demo_dir) →
      dt_le mc e.2 = true →
      (∀ x, x ∈ entries_of (candidates "shop" demo_dir) → dt_le x.2 e.2 = true) →
      ∃ s, s ∈ entries_of (candidates "shop" demo_dir) ∧ s.2 = e.2 ∧
           s.1 ∈ kept p ∧ (s.1 ∉ deleted p).
Proof.
  assert (clock_ok demo_now) as H by demo_clock.
  split; [exact H|]. exact (X5_latest_recent_entry_kept "shop" demo_now demo_dir H).
Defined.

(** X6. A second run on the directory the first one left, with the same
    [now], has the same keep-set, and its delete-set is made of the paths
    of the first delete-set whose removal was refused. *)
Theorem X6_second_run_retries_refused_removals db now w :
  clock_ok now → NoDup (listing w) →
  ∃ p1 w1 p2,
    rotation_plan db now (listing w) = Some p1 ∧
    rotate_backups db now w = (Ok tt, w1) ∧
    rotation_plan db now (listing w1) = Some p2 ∧
    kept p2 = kept p1 ∧
    ∀ f, f ∈ deleted p2 ↔ f ∈ deleted p1 ∧ f ∈ refused w.
Proof.
  intros Hc Hnodup.
  destruct (rotate_backups_run db now w Hc Hnodup) as (p1 & Hp1 & Hrun).
  destruct (run_of_ok db now (listing w) Hc)
    as (dc & wc & mc & p & Hro & _ & _ & _ & Hk & Hd & _).
  pose proof Hro as (_ & _ & _ & Hp). rewrite Hp1 in Hp. injection Hp as <-.
  destruct (second_run db now (listing w) (refused w) dc wc mc p1 Hro Hk Hd)
    as (p2 & Hp2 & Hk2 & Hd2).
  eexists p1, _, p2. split; [done|]. split; [exact Hrun|]. simpl. done.
Qed.

Lemma X6_witness :
  clock_ok demo_now ∧ NoDup demo_dir ∧
  ∃ p1 w1 p2,
    rotation_plan "shop" demo_now demo_dir = Some p1 ∧
    rotate_backups "shop" demo_now
      (mk_world demo_dir {[ "shop_20250301_020000.zip" ]} []) = (Ok tt, w1) ∧
    rotation_plan "shop" demo_now (listing w1) = Some p2 ∧
    kept p2 = kept p1 ∧
    ∀ f, f ∈ deleted p2 ↔
         f ∈ deleted p1 ∧ f ∈ ({[ "shop_20250301_020000.zip" ]} : gset string).
Proof.
  assert (clock_ok demo_now) as H by demo_clock.
  assert (NoDup demo_dir) as Hn by demo_nodup.
  split; [exact H|]. split; [exact Hn|].
  exact (X6_second_run_retries_refused_removals "shop" demo_now
           (mk_world demo_dir {[ "shop_20250301_020000.zip" ]} []) H Hn).
Defined.

(** ** More properties of the codec *)



(** X8. A file name whose stem has no underscore has fewer than two
    segments, and the decoder returns nothing for it. *)
Theorem X8_stem_without_underscore_not_parsed f :
  Text.contains "_" (PurePath.stem f) = false → parse_backup_timestamp f = None.
Proof.
  intros H. unfold parse_backup_timestamp.
  by rewrite (TextFacts.split_plain "_" _ H).
Qed.

Lemma X8_witness :
  Text.contains "_" (PurePath.stem "20250409020000.zip") = false ∧
  parse_backup_timestamp "20250409020000.zip" = None.
Proof.
  assert (Text.contains "_" (PurePath.stem "20250409020000.zip") = false) as H
    by (vm_compute; reflexivity).
  split; [exact H|].
  exact (X8_stem_without_underscore_not_parsed "20250409020000.zip" H).
Defined.

(** X9. The decoder reads the last two underscore-separated segments of
    the stem and nothing else: when the stem is [D_T], or [pre_D_T] for
    any text [pre], with no underscore in [D] and [T], the result is that
    of [strptime] on [D_T]. *)
Theorem X9_only_last_two_segments_read f D T :
  Text.contains "_" D = false → Text.contains "_" T = false →
  (PurePath.stem f = D +:+ "_" +:+ T ∨
   ∃ pre, PurePath.stem f = pre +:+ "_" +:+ D +:+ "_" +:+ T) →
  parse_backup_timestamp f = Strptime.strptime (D +:+ "_" +:+ T).
Proof.
  intros HD HT [Hs|[pre Hs]].
  - apply (parse_last_two f []). rewrite Hs.
    change (D +:+ "_" +:+ T) with (D +:+ String "_" T).
    rewrite TextFacts.split_app, !TextFacts.split_plain by done. done.
  - apply (parse_last_two f (Text.split "_" pre)). rewrite Hs.
    change (pre +:+ "_" +:+ D +:+ "_" +:+ T)
      with (pre +:+ String "_" (D +:+ String "_" T)).
    rewrite !TextFacts.split_app, (TextFacts.split_plain "_" D),
      (TextFacts.split_plain "_" T) by done. done.
Qed.

Lemma X9_witness :
  Text.contains "_" "20250101" = false ∧ Text.contains "_" "020000" = false ∧
  (PurePath.stem "shop_eu_20250101_020000.zip" = "20250101" +:+ "_" +:+ "020000" ∨
   ∃ pre, PurePath.stem "shop_eu_20250101_020000.zip"
          = pre +:+ "_" +:+ "20250101" +:+ "_" +:+ "020000") ∧
  parse_backup_timestamp "shop_eu_20250101_020000.zip"
  = Strptime.strptime ("20250101" +:+ "_" +:+ "020000").
Proof.
  assert (PurePath.stem "shop_eu_20250101_020000.zip" = "20250101" +:+ "_" +:+ "020000" ∨
          ∃ pre, PurePath.stem "shop_eu_20250101_020000.zip"
                 = pre +:+ "_" +:+ "20250101" +:+ "_" +:+ "020000") as H
    by (right; exists "shop_eu"; vm_compute; reflexivity).
  split; [reflexivity|]. split; [reflexivity|]. split; [exact H|].
  exact (X9_only_last_two_segments_read "shop_eu_20250101_020000.zip"
           "20250101" "020000" eq_refl eq_refl H).
Defined.

(** X10. Two instants with four-digit years give one database the same
    backup name exactly when they agree up to the second: backups taken
    within one second share a name, others never do. *)
Theorem X10_names_collide_within_a_second db t t' :
  valid_datetime t → valid_datetime t' → 1000 <= year t → 1000 <= year t' →
  get_backup_name db t = get_backup_name db t' ↔ whole_second t = whole_second t'.
Proof.
  intros Hv Hv' Hy Hy'. split.
  - unfold get_backup_name. intros H.
    apply (inj (String.app db)) in H.
    change ("_" +:+ Strftime.strftime t) with (String "_" (Strftime.strftime t)) in H.
    change ("_" +:+ Strftime.strftime t') with (String "_" (Strftime.strftime t')) in H.
    injection H as H.
    pose proof (CodecFacts.strptime_strftime (whole_second t)
                  (whole_second_valid t Hv) eq_refl Hy) as E.
    pose proof (CodecFacts.strptime_strftime (whole_second t')
                  (whole_second_valid t' Hv') eq_refl Hy') as E'.
    change (Strftime.strftime (whole_second t)) with (Strftime.strftime t) in E.
    change (Strftime.strftime (whole_second t')) with (Strftime.strftime t') in E'.
    rewrite H in E. congruence.
  - intros H. rewrite <- (get_backup_name_whole_second db t), H.
    apply get_backup_name_whole_second.
Qed.

Lemma X10_witness :
  valid_datetime (mk_datetime 2025 4 9 2 0 0 1) ∧
  valid_datetime (mk_datetime 2025 4 9 2 0 0 999999) ∧
  1000 <= year (mk_datetime 2025 4 9 2 0 0 1) ∧
  1000 <= year (mk_datetime 2025 4 9 2 0 0 999999) ∧
  (get_backup_name "shop" (mk_datetime 2025 4 9 2 0 0 1)
   = get_backup_name "shop" (mk_datetime 2025 4 9 2 0 0 999999)
   ↔ whole_second (mk_datetime 2025 4 9 2 0 0 1)
     = whole_second (mk_datetime 2025 4 9 2 0 0 999999)).
Proof.
  assert (valid_datetime (mk_datetime 2025 4 9 2 0 0 1)) as H1 by (split; reflexivity).
  assert (valid_datetime (mk_datetime 2025 4 9 2 0 0 999999)) as H2
    by (split; reflexivity).
  assert (1000 <= year (mk_datetime 2025 4 9 2 0 0 1)) as H3 by (simpl; lia).
  assert (1000 <= year (mk_datetime 2025 4 9 2 0 0 999999)) as H4 by (simpl; lia).
  split; [exact H1|]. split; [exact H2|]. split; [exact H3|]. split; [exact H4|].
  exact (X10_names_collide_within_a_second "shop" _ _ H1 H2 H3 H4).
Defined.

(** ** The archive of a backup: its name, and the rotation that follows *)

Section archive_facts.
Import Text TextFacts CodecFacts PurePathSuffix.

Lemma rfind_upper c s : rfind c s < len s.
Proof.
  unfold len. induction s as [|a s IH]; simpl rfind; simpl String.length; [lia|].
  destruct (Z.leb_spec 0 (rfind c s)); [lia|]. destruct (chr_eqb a c); lia.
Qed.

Lemma rfind_app_plain c a b :
  contains c b = false → rfind c (a +:+ b) = rfind c a.
Proof.
  intros Hb. induction a as [|x a IH]; [by apply rfind_plain|].
  change (String x a +:+ b) with (String x (a +:+ b)). simpl. by rewrite IH.
Qed.

Lemma take_str_length n s : (String.length (take_str n s) ≤ n)%nat.
Proof.
  revert s. induction n as [|n IH]; intros [|a s]; simpl; try lia.
  specialize (IH s). lia.
Qed.

Lemma drop_str_length n s :
  String.length (drop_str n s) = (String.length s - n)%nat.
Proof.
  revert s. induction n as [|n IH]; intros [|a s]; simpl; try lia. apply IH.
Qed.

Lemma str_length_app a b :
  String.length (a +:+ b) = (String.length a + String.length b)%nat.
Proof.
  induction a as [|x a IH]; [done|].
  change (String x a +:+ b) with (String x (a +:+ b)). simpl. by rewrite IH.
Qed.

Lemma get_backup_name_tail_plain c t :
  Strptime.between "0" "9" c = false → c ≠ "_"%char →
  contains c ("_" +:+ Strftime.strftime t) = false.
Proof.
  intros H1 H2.
  change ("_" +:+ Strftime.strftime t) with (String "_" (Strftime.strftime t)).
  simpl. rewrite strftime_plain by done. unfold chr_eqb.
  by rewrite bool_decide_eq_false_2 by (intros E; by apply H2).
Qed.

Lemma get_backup_name_not_dot db t : get_backup_name db t ≠ ".".
Proof.
  intros E. assert (contains "_" (get_backup_name db t) = true) as H.
  { unfold get_backup_name. rewrite contains_app.
    change ("_" +:+ Strftime.strftime t) with (String "_" (Strftime.strftime t)).
    apply orb_true_intro. right. cbn [contains]. apply orb_true_intro. left.
    unfold chr_eqb. by apply bool_decide_eq_true_2. }
  rewrite E in H. done.
Qed.

Lemma get_backup_name_length db t :
  (String.length db + 2 ≤ String.length (get_backup_name db t))%nat.
Proof.
  unfold get_backup_name. rewrite str_length_app.
  change ("_" +:+ Strftime.strftime t) with (String "_" (Strftime.strftime t)).
  simpl String.length. rewrite strftime_parts, !str_length_app. simpl. lia.
Qed.

(** The path [create_zip] returns, for a database name without ["/"]:
    the base name cut at the last dot of the database name when that
    dot is not its first character. *)
Lemma archive_returned_eq db t :
  contains "/" db = false →
  archive_returned db t =
  if 0 <? rfind "." db
  then Some (take_str (Z.to_nat (rfind "." db)) (get_backup_name db t) +:+ ".zip")
  else Some (archive_written db t).
Proof.
  intros Hdb. unfold archive_returned, archive_written, with_suffix, suffix.
  change (contains "/" ".zip") with false. cbn iota.
  change ((negb (bool_decide (".zip" = "")) && negb (starts_with "." ".zip"))
          || bool_decide (".zip" = ".")) with false. cbn iota.
  set (base := get_backup_name db t).
  assert (PurePath.name base = base) as ->.
  { apply name_plain; [by apply get_backup_name_plain|
                       apply get_backup_name_nonempty|apply get_backup_name_not_dot]. }
  rewrite bool_decide_eq_false_2 by apply get_backup_name_nonempty.
  assert (rfind "." base = rfind "." db) as ->.
  { unfold base, get_backup_name. apply rfind_app_plain.
    by apply get_backup_name_tail_plain. }
  pose proof (rfind_upper "." db) as Hup.
  pose proof (get_backup_name_length db t) as Hlen. fold base in Hlen.
  unfold len in *.
  destruct (Z.ltb_spec 0 (rfind "." db)) as [Hpos|Hneg]; simpl.
  - destruct (Z.ltb_spec (rfind "." db) (Z.of_nat (String.length base) - 1));
      [|lia].
    rewrite bool_decide_eq_false_2.
    + rewrite drop_str_length.
      replace (String.length base - (String.length base - Z.to_nat (rfind "." db)))%nat
        with (Z.to_nat (rfind "." db)) by lia.
      done.
    + intros E. pose proof (drop_str_length (Z.to_nat (rfind "." db)) base) as Hd.
      rewrite E in Hd. simpl in Hd. lia.
  - done.
Qed.

End archive_facts.

(** X11. For a database name without ["/"], the path [create_zip] returns
    is the archive [make_archive] wrote exactly when the database name
    has no dot after its first character; otherwise the returned name is
    cut at that dot. *)
Theorem X11_create_zip_returns_written_archive_iff_no_dot db t :
  Text.contains "/" db = false →
  archive_returned db t = Some (archive_written db t) ↔ Text.rfind "." db <= 0.
Proof.
  intros Hdb. rewrite (archive_returned_eq db t Hdb).
  destruct (Z.ltb_spec 0 (Text.rfind "." db)) as [Hpos|Hneg]; [|done].
  split; [|lia]. intros [= E]. exfalso. unfold archive_written in E.
  assert (String.length (Text.take_str (Z.to_nat (Text.rfind "." db))
                           (get_backup_name db t) +:+ ".zip")
          = String.length (get_backup_name db t +:+ ".zip")) as Hl by (by rewrite E).
  rewrite !str_length_app in Hl.
  pose proof (take_str_length (Z.to_nat (Text.rfind "." db)) (get_backup_name db t)).
  pose proof (rfind_upper "." db) as Hup. unfold Text.len in Hup.
  pose proof (get_backup_name_length db t). lia.
Qed.

Lemma X11_witness :
  Text.contains "/" "my.db" = false ∧
  (archive_returned "my.db" demo_now = Some (archive_written "my.db" demo_now)
   ↔ Text.rfind "." "my.db" <= 0).
Proof.
  split; [reflexivity|].
  exact (X11_create_zip_returns_written_archive_iff_no_dot "my.db" demo_now eq_refl).
Defined.

(** X12. The archive written for database [db] at instant [t] (a name
    without ["/"] and ["["], a four-digit year) is a candidate of the runs
    for [db] and parses to [t] cut to the second; a run whose clock reads
    a date fewer than 7 days after that of [t] keeps it, and it is still
    in the directory after the run. *)
Theorem X12_fresh_archive_survives_rotation db t now w :
  Text.contains "/" db = false → Text.contains "[" db = false →
  valid_datetime t → 1000 <= year t →
  clock_ok now → toordinal now < toordinal t + 7 →
  NoDup (listing w) → archive_written db t ∈ listing w →
  ∃ p, rotation_plan db now (listing w) = Some p ∧
    archive_written db t ∈ candidates db (listing w) ∧
    parse_backup_timestamp (archive_written db t) = Some (whole_second t) ∧
    archive_written db t ∈ kept p ∧ (archive_written db t ∉ deleted p) ∧
    archive_written db t ∈ listing (rotate_backups db now w).2.
Proof.
  intros Hdb _ Hv Hy Hc Hrecent Hnodup Hin.
  destruct (run_of_ok db now (listing w) Hc)
    as (dc & wc & mc & p & Hrun & _ & _ & _ & _ & _ & _).
  exists p. split; [apply Hrun|].
  assert (archive_written db t ∈ candidates db (listing w)) as Hcand.
  { apply candidates_elem. split; [done|]. unfold archive_written, get_backup_name.
    rewrite CodecFacts.str_app_assoc. apply fnmatch_own_archives. }
  assert (parse_backup_timestamp (archive_written db t) = Some (whole_second t))
    as Hparse.
  { unfold archive_written. rewrite <- get_backup_name_whole_second.
    apply archive_name_round_trip; [by apply whole_second_valid|done..]. }
  split; [done|]. split; [done|].
  apply (daily_entry_survives db now w dc wc mc p _ (whole_second t));
    [done..|].
  destruct Hc as [Hvn Hord]. destruct Hrun as (Ed & _).
  unfold dt_sub in Ed. pose proof (toordinal_range now Hvn) as Hr.
  rewrite dt_add_valid in Ed by (done || lia). injection Ed as <-.
  unfold dt_ge. apply dt_le_iff. left.
  pose proof (CalendarFacts.ord2ymd_mono (toordinal now + -7) (toordinal t)
                ltac:(lia) ltac:(lia)) as Hlt.
  pose proof (toordinal_range t Hv) as Hrt.
  destruct Hv as [Hd _]. unfold check_date_fields in Hd.
  repeat (apply andb_prop in Hd as [Hd ?]).
  unfold toordinal in Hlt at 2. unfold toordinal in Hrt.
  rewrite ord2ymd_ymd2ord in Hlt by lia.
  unfold date_lt in Hlt. cbn [fst snd] in Hlt.
  unfold dt_ltP, whole_second.
  cbn [year month day hour minute second microsecond].
  change (Z.opp 7) with (-7). lia.
Qed.

Lemma X12_witness :
  Text.contains "/" "shop" = false ∧ Text.contains "[" "shop" = false ∧
  valid_datetime (mk_datetime 2025 4 9 2 0 0 5) ∧
  1000 <= year (mk_datetime 2025 4 9 2 0 0 5) ∧
  clock_ok demo_now ∧
  toordinal demo_now < toordinal (mk_datetime 2025 4 9 2 0 0 5) + 7 ∧
  NoDup demo_dir ∧
  archive_written "shop" (mk_datetime 2025 4 9 2 0 0 5) ∈ demo_dir ∧
  ∃ p, rotation_plan "shop" demo_now demo_dir = Some p ∧
    archive_written "shop" (mk_datetime 2025 4 9 2 0 0 5) ∈ candidates "shop" demo_dir ∧
    parse_backup_timestamp (archive_written "shop" (mk_datetime 2025 4 9 2 0 0 5))
      = Some (whole_second (mk_datetime 2025 4 9 2 0 0 5)) ∧
    archive_written "shop" (mk_datetime 2025 4 9 2 0 0 5) ∈ kept p ∧
    (archive_written "shop" (mk_datetime 2025 4 9 2 0 0 5) ∉ deleted p) ∧
    archive_written "shop" (mk_datetime 2025 4 9 2 0 0 5)
      ∈ listing (rotate_backups "shop" demo_now (mk_world demo_dir ∅ [])).2.
Proof.
  assert (valid_datetime (mk_datetime 2025 4 9 2 0 0 5)) as Hv by (split; reflexivity).
  assert (1000 <= year (mk_datetime 2025 4 9 2 0 0 5)) as Hy by (simpl; lia).
  assert (clock_ok demo_now) as Hc by demo_clock.
  assert (toordinal demo_now < toordinal (mk_datetime 2025 4 9 2 0 0 5) + 7) as Hr
    by (vm_compute; reflexivity).
  assert (NoDup demo_dir) as Hn by demo_nodup.
  assert (archive_written "shop" (mk_datetime 2025 4 9 2 0 0 5) ∈ demo_dir) as Hin
    by (apply (bool_decide_unpack _); vm_compute; exact I).
  split; [reflexivity|]. split; [reflexivity|]. split; [exact Hv|]. split; [exact Hy|].
  split; [exact Hc|]. split; [exact Hr|]. split; [exact Hn|]. split; [exact Hin|].
  exact (X12_fresh_archive_survives_rotation "shop" (mk_datetime 2025 4 9 2 0 0 5)
           demo_now (mk_world demo_dir ∅ []) eq_refl eq_refl Hv Hy Hc Hr Hn Hin).
Defined.

(** ** Orders: of the removals, and of the names of one database *)

Lemma delete_for_fst keep (es : list entry) :
  delete_for keep es = filter (λ f, f ∉ keep) es.*1.
Proof.
  unfold delete_for. induction es as [|e es IH]; [done|].
  rewrite fmap_cons, !filter_cons. destruct (decide (e.1 ∉ keep)); [|done].
  by rewrite fmap_cons, IH.
Qed.

(** X13. The removals of a run are attempted in increasing order of the
    paths, each path once. *)
Theorem X13_removals_in_path_order db now w :
  clock_ok now → NoDup (listing w) →
  ∃ p w' evs,
    rotation_plan db now (listing w) = Some p ∧
    rotate_backups db now w = (Ok tt, w') ∧
    log w' = log w ++ evs ∧
    attempted evs = deleted p ∧
    StronglySorted String.le (deleted p) ∧ NoDup (deleted p).
Proof.
  intros Hc Hnodup.
  destruct (rotate_backups_run db now w Hc Hnodup) as (p & Hp & Hrun).
  destruct (run_of_ok db now (listing w) Hc)
    as (dc & wc & mc & p' & Hro & _ & _ & _ & _ & Hd & _).
  pose proof Hro as (_ & _ & _ & Hp'). rewrite Hp in Hp'. injection Hp' as <-.
  eexists p, _, _. split; [done|]. split; [exact Hrun|]. simpl.
  split; [reflexivity|]. split.
  { by rewrite attempted_app, attempted_skipping, attempted_removal. }
  rewrite Hd.
  rewrite delete_for_fst.
  split.
  - apply StronglySorted_filter_str, entries_sorted.
  - apply NoDup_filter, entries_of_NoDup. by apply candidates_NoDup.
Qed.

Lemma X13_witness :
  clock_ok demo_now ∧ NoDup demo_dir ∧
  ∃ p w' evs,
    rotation_plan "shop" demo_now demo_dir = Some p ∧
    rotate_backups "shop" demo_now (mk_world demo_dir ∅ []) = (Ok tt, w') ∧
    log w' = [] ++ evs ∧
    attempted evs = deleted p ∧
    StronglySorted String.le (deleted p) ∧ NoDup (deleted p).
Proof.
  assert (clock_ok demo_now) as H by demo_clock.
  assert (NoDup demo_dir) as Hn by demo_nodup.
  split; [exact H|]. split; [exact Hn|].
  exact (X13_removals_in_path_order "shop" demo_now (mk_world demo_dir ∅ []) H Hn).
Defined.

Section name_order.
Import Strftime CodecFacts.

Lemma str_compare_app p a b :
  String.compare (p +:+ a) (p +:+ b) = String.compare a b.
Proof.
  induction p as [|c p IH]; [done|].
  change (String c p +:+ a) with (String c (p +:+ a)).
  change (String c p +:+ b) with (String c (p +:+ b)).
  simpl. unfold Ascii.compare. by rewrite N.compare_refl.
Qed.

Lemma digit_compare a b :
  Ascii.compare (digit a) (digit b) = (a mod 10 ?= b mod 10).
Proof.
  unfold Ascii.compare, digit.
  pose proof (Z.mod_pos_bound a 10 ltac:(done)).
  pose proof (Z.mod_pos_bound b 10 ltac:(done)).
  rewrite !N_ascii_embedding by lia.
  first [rewrite N2Z.inj_compare | rewrite <- N2Z.inj_compare].
  rewrite !N2Z.inj_add, !Z2N.id by lia. apply Z.add_compare_mono_l.
Qed.

Lemma str_compare_cons a b r r' :
  String.compare (String (digit a) r) (String (digit b) r')
  = lex (a mod 10 ?= b mod 10) (String.compare r r').
Proof. simpl. rewrite digit_compare. by destruct (_ ?= _). Qed.

Lemma pad2_compare a b r r' :
  0 <= a <= 99 → 0 <= b <= 99 →
  String.compare (pad2 a +:+ r) (pad2 b +:+ r')
  = lex (a ?= b) (String.compare r r').
Proof.
  intros Ha Hb. unfold pad2.
  change (String ?x (String ?y "") +:+ ?z) with (String x (String y z)).
  rewrite !str_compare_cons.
  destruct (Z.compare_spec a b) as [->|Hlt|Hgt].
  - by rewrite !Z.compare_refl.
  - destruct (Z.compare_spec ((a / 10) mod 10) ((b / 10) mod 10)) as [E|E|E];
      simpl; [|done|exfalso; Z.div_mod_to_equations; lia].
    destruct (Z.compare_spec (a mod 10) (b mod 10)) as [E'|E'|E']; simpl;
      [exfalso|done|exfalso]; Z.div_mod_to_equations; lia.
  - destruct (Z.compare_spec ((a / 10) mod 10) ((b / 10) mod 10)) as [E|E|E];
      simpl; [|exfalso; Z.div_mod_to_equations; lia|done].
    destruct (Z.compare_spec (a mod 10) (b mod 10)) as [E'|E'|E']; simpl;
      [exfalso|exfalso|done]; Z.div_mod_to_equations; lia.
Qed.

Lemma pad4_as_pad2 a r :
  0 <= a <= 9999 → pad4 a +:+ r = pad2 (a / 100) +:+ pad2 (a mod 100) +:+ r.
Proof.
  intros Ha. unfold pad4, pad2. cbv [String.append].
  assert (∀ x y, x mod 10 = y mod 10 → digit x = digit y) as Hdig.
  { intros x y E. unfold digit. by rewrite E. }
  rewrite (Hdig (a / 1000) ((a / 100) / 10)) by (Z.div_mod_to_equations; lia).
  rewrite (Hdig (a / 10) ((a mod 100) / 10)) by (Z.div_mod_to_equations; lia).
  rewrite (Hdig a (a mod 100)) by (Z.div_mod_to_equations; lia).
  done.
Qed.

Lemma pad4_compare a b r r' :
  0 <= a <= 9999 → 0 <= b <= 9999 →
  String.compare (pad4 a +:+ r) (pad4 b +:+ r')
  = lex (a ?= b) (String.compare r r').
Proof.
  intros Ha Hb. rewrite !pad4_as_pad2 by done.
  rewrite !pad2_compare by (Z.div_mod_to_equations; lia).
  destruct (Z.compare_spec a b) as [->|Hlt|Hgt].
  - by rewrite !Z.compare_refl.
  - destruct (Z.compare_spec (a / 100) (b / 100)) as [E|E|E];
      simpl; [|done|exfalso; Z.div_mod_to_equations; lia].
    destruct (Z.compare_spec (a mod 100) (b mod 100)) as [E'|E'|E']; simpl;
      [exfalso|done|exfalso]; Z.div_mod_to_equations; lia.
  - destruct (Z.compare_spec (a / 100) (b / 100)) as [E|E|E];
      simpl; [|exfalso; Z.div_mod_to_equations; lia|done].
    destruct (Z.compare_spec (a mod 100) (b mod 100)) as [E'|E'|E']; simpl;
      [exfalso|exfalso|done]; Z.div_mod_to_equations; lia.
Qed.

(** With four-digit years the texts of two datetimes compare as the
    datetimes cut to the second do. *)
Lemma strftime_compare t t' :
  valid_datetime t → valid_datetime t' → 1000 <= year t → 1000 <= year t' →
  String.compare (strftime t) (strftime t')
  = dt_cmp (whole_second t) (whole_second t').
Proof.
  intros Hv Hv' Hy Hy'.
  pose proof (valid_fields t Hv) as (HY & Hm & Hd & HH & HM & HS).
  pose proof (valid_fields t' Hv') as (HY' & Hm' & Hd' & HH' & HM' & HS').
  unfold strftime. rewrite !year_text_four by done.
  rewrite pad4_compare, !pad2_compare by lia.
  change ("_" +:+ ?x) with (String "_" x). cbn [String.compare].
  change (Ascii.compare "_" "_") with Eq. cbn iota.
  rewrite !pad2_compare by lia.
  change (pad2 (second t)) with (pad2 (second t) +:+ "").
  change (pad2 (second t')) with (pad2 (second t') +:+ "").
  rewrite pad2_compare by lia.
  unfold dt_cmp, whole_second. simpl.
  by destruct (second t ?= second t').
Qed.

End name_order.

(** X14. For one database and four-digit years, backup names are ordered
    as the instants they were made at, cut to the second: sorting the
    names sorts the backups by age. *)
Theorem X14_names_sort_chronologically db t t' :
  valid_datetime t → valid_datetime t' → 1000 <= year t → 1000 <= year t' →
  String.le (get_backup_name db t) (get_backup_name db t')
  ↔ dt_le (whole_second t) (whole_second t') = true.
Proof.
  intros Hv Hv' Hy Hy'. unfold String.le, String.leb, get_backup_name, dt_le.
  rewrite str_compare_app.
  change ("_" +:+ ?x) with (String "_" x). cbn [String.compare].
  change (Ascii.compare "_" "_") with Eq. cbn iota.
  rewrite strftime_compare by done.
  destruct (dt_cmp _ _); simpl; split; done.
Qed.

Lemma X14_witness :
  valid_datetime (mk_datetime 2025 3 15 2 0 0 0) ∧
  valid_datetime (mk_datetime 2025 3 15 10 0 0 0) ∧
  1000 <= year (mk_datetime 2025 3 15 2 0 0 0) ∧
  1000 <= year (mk_datetime 2025 3 15 10 0 0 0) ∧
  (String.le (get_backup_name "shop" (mk_datetime 2025 3 15 2 0 0 0))
             (get_backup_name "shop" (mk_datetime 2025 3 15 10 0 0 0))
   ↔ dt_le (whole_second (mk_datetime 2025 3 15 2 0 0 0))
           (whole_second (mk_datetime 2025 3 15 10 0 0 0)) = true).
Proof.
  assert (valid_datetime (mk_datetime 2025 3 15 2 0 0 0)) as H1 by (split; reflexivity).
  assert (valid_datetime (mk_datetime 2025 3 15 10 0 0 0)) as H2 by (split; reflexivity).
  assert (1000 <= year (mk_datetime 2025 3 15 2 0 0 0)) as H3 by (simpl; lia).
  assert (1000 <= year (mk_datetime 2025 3 15 10 0 0 0)) as H4 by (simpl; lia).
  split; [exact H1|]. split; [exact H2|]. split; [exact H3|]. split; [exact H4|].
  exact (X14_names_sort_chronologically "shop" _ _ H1 H2 H3 H4).
Defined.
